(** * avr-onewire: the timer-driven 1-wire bit transceiver of onewire.c

    A shallow embedding of onewire.c (ATtiny85, timer0 in CTC mode).

    - The I/O registers are 8-bit cells, kept as [Z] in [0, 256); a store
      wraps its value with [wrap8].
    - [onewire0.state] is the C enum [onewire0_state], [onewire0.bit] a byte.
    - Every store to a volatile object (an I/O register or a field of
      [onewire0]) and every load of PINB is recorded in a log, newest first;
      [history] gives it in program order.
    - PINB is an input: its successive readings are given by the list
      [pin_in], one reading consumed per load.
    - The busy-wait [while (onewire0.state != OW0_IDLE) { }] is a loop on a
      fuel counter.  One unit of fuel is one compare-match period of timer0:
      when the timer runs and its compare-match-A interrupt is enabled the
      handler [ISR] runs once, otherwise the spin leaves the machine as it
      is.  The loop never leaves before the state is idle; running out of
      fuel is [None]. *)

From Stdlib Require Import ZArith List Bool Lia.
Import ListNotations.

Local Open Scope Z_scope.

(** ** Bytes *)

Definition wrap8 (z : Z) : Z := z mod 256.

(** ** Register names and bit positions

    onewire.c takes these from <avr/io.h>; the values are those of the
    ATtiny85 header. *)

Inductive reg : Type :=
| DDRB | PORTB | TCNT0 | OCR0A | OCR0B | TCCR0A | TCCR0B | TIFR | TIMSK.

Definition reg_eqb (a b : reg) : bool :=
  match a, b with
  | DDRB, DDRB | PORTB, PORTB | TCNT0, TCNT0 | OCR0A, OCR0A | OCR0B, OCR0B
  | TCCR0A, TCCR0A | TCCR0B, TCCR0B | TIFR, TIFR | TIMSK, TIMSK => true
  | _, _ => false
  end.

Definition PORTB0 : Z := 0.
Definition CS00 : Z := 0.
Definition CS01 : Z := 1.
Definition CS02 : Z := 2.
Definition WGM01 : Z := 1.
Definition OCIE0A : Z := 4.
Definition OCF0A : Z := 4.

(** ** The macros of onewire.c *)

Definition PIN : Z := Z.shiftl 1 PORTB0.
Definition CPU_FREQ : Z := 8000000.
Definition PRESCALER : Z := Z.shiftl 1 CS01.
Definition RESET_PRESCALER : Z := Z.lor (Z.shiftl 1 CS01) (Z.shiftl 1 CS00).

Definition GAP_A : Z := 6.
Definition GAP_B : Z := 64.
Definition GAP_C : Z := 60.
Definition GAP_D : Z := 10.
Definition GAP_E : Z := 9.
Definition GAP_F : Z := 55.
Definition GAP_G : Z := 0.
Definition GAP_H : Z := 60.
Definition GAP_I : Z := 9.
Definition GAP_J : Z := 51.

(** ** enum onewire0_state *)

Inductive onewire0_state : Type :=
| OW0_IDLE
| OW0_WRITE0_LOW
| OW0_WRITE0_RELEASE
| OW0_WRITE1_LOW
| OW0_WRITE1_RELEASE
| OW0_READ_LOW
| OW0_READ_SAMPLE
| OW0_READ_RELEASE.

Definition state_code (s : onewire0_state) : Z :=
  match s with
  | OW0_IDLE => 0
  | OW0_WRITE0_LOW => 1
  | OW0_WRITE0_RELEASE => 2
  | OW0_WRITE1_LOW => 3
  | OW0_WRITE1_RELEASE => 4
  | OW0_READ_LOW => 5
  | OW0_READ_SAMPLE => 6
  | OW0_READ_RELEASE => 7
  end.

Definition is_idle (s : onewire0_state) : bool :=
  match s with OW0_IDLE => true | _ => false end.

(** ** The machine *)

Inductive event : Type :=
| Store (r : reg) (v : Z)          (* a store to an I/O register *)
| LoadPINB (v : Z)                 (* a load of PINB *)
| SetState (s : onewire0_state)    (* a store to onewire0.state *)
| SetBit (b : Z)                   (* a store to onewire0.bit *)
| Match (low : bool) (ticks : Z).  (* timer0 reached OCR0A = ticks; low: the
                                      pin was an output during the period *)

Record machine : Type := mkMachine {
  io : reg -> Z;
  ow_state : onewire0_state;
  ow_bit : Z;
  pin_in : list Z;
  log : list event
}.

Definition history (m : machine) : list event := rev (log m).

(** A store to an I/O register.  TIFR holds interrupt flags, which a store
    clears where it writes a one; every other register keeps the value
    stored. *)
Definition store (r : reg) (v : Z) (m : machine) : machine :=
  let v8 := wrap8 v in
  let kept := match r with
              | TIFR => wrap8 (Z.land (io m TIFR) (Z.lnot v8))
              | _ => v8
              end in
  {| io := fun r' => if reg_eqb r r' then kept else io m r';
     ow_state := ow_state m;
     ow_bit := ow_bit m;
     pin_in := pin_in m;
     log := Store r v8 :: log m |}.

Definition set_state (s : onewire0_state) (m : machine) : machine :=
  {| io := io m;
     ow_state := s;
     ow_bit := ow_bit m;
     pin_in := pin_in m;
     log := SetState s :: log m |}.

Definition set_bit (b : Z) (m : machine) : machine :=
  {| io := io m;
     ow_state := ow_state m;
     ow_bit := wrap8 b;
     pin_in := pin_in m;
     log := SetBit (wrap8 b) :: log m |}.

(** The reading PINB gives next; with no reading left the line idles high
    on its pull-up. *)
Definition next_PINB (m : machine) : Z :=
  match pin_in m with
  | v :: _ => wrap8 v
  | [] => PIN
  end.

Definition load_PINB (m : machine) : Z * machine :=
  (next_PINB m,
   {| io := io m;
      ow_state := ow_state m;
      ow_bit := ow_bit m;
      pin_in := tl (pin_in m);
      log := LoadPINB (next_PINB m) :: log m |}).

(** The pin is an output (and, PORTB0 being clear, pulls the bus low) when
    its DDRB bit is set. *)
Definition driving (m : machine) : bool := Z.testbit (io m DDRB) PORTB0.

Definition timer_running (m : machine) : bool :=
  negb (Z.land (io m TCCR0B)
          (Z.lor (Z.shiftl 1 CS02) (Z.lor (Z.shiftl 1 CS01) (Z.shiftl 1 CS00)))
        =? 0).

Definition irq_enabled (m : machine) : bool := Z.testbit (io m TIMSK) OCIE0A.

Definition irq_armed (m : machine) : bool := timer_running m && irq_enabled m.

(** ** onewire.c, function by function *)

Definition onewire0_init (m : machine) : machine :=
  let m := set_state OW0_IDLE m in
  let m := store DDRB (Z.land (io m DDRB) (Z.lnot PIN)) m in
  let m := store PORTB (Z.land (io m PORTB) (Z.lnot PIN)) m in
  let m := store TCCR0A (Z.lor (io m TCCR0A) (Z.shiftl 1 WGM01)) m in
  let m := store TCCR0B (Z.land (io m TCCR0B) (Z.lnot PRESCALER)) m in
  let m := store OCR0B 255 m in
  store TIMSK (Z.lor (io m TIMSK) (Z.shiftl 1 OCIE0A)) m.

Definition _starttimer (m : machine) : machine :=
  let m := store TIFR (Z.lor (io m TIFR) (Z.shiftl 1 OCF0A)) m in
  let m := store TCNT0 0 m in
  store TCCR0B (Z.lor (io m TCCR0B) PRESCALER) m.

Definition _release (m : machine) : machine :=
  store DDRB (Z.land (io m DDRB) (Z.lnot PIN)) m.

Definition _pulllow (m : machine) : machine :=
  store DDRB (Z.lor (io m DDRB) PIN) m.

(** ISR(TIMER0_COMPA_vect) *)
Definition ISR (m : machine) : machine :=
  match ow_state m with
  | OW0_IDLE => m
  | OW0_WRITE0_LOW =>
      let m := _release m in
      let m := store OCR0A GAP_D m in
      set_state OW0_WRITE0_RELEASE m
  | OW0_WRITE0_RELEASE =>
      set_state OW0_IDLE m
  | OW0_WRITE1_LOW =>
      let m := _release m in
      let m := store OCR0A GAP_B m in
      set_state OW0_WRITE1_RELEASE m
  | OW0_WRITE1_RELEASE =>
      set_state OW0_IDLE m
  | OW0_READ_LOW =>
      let m := _release m in
      let m := store OCR0A GAP_E m in
      set_state OW0_READ_SAMPLE m
  | OW0_READ_SAMPLE =>
      let (pinb, m) := load_PINB m in
      let m := set_bit (if Z.land pinb PIN =? 0 then 0 else 1) m in
      let m := store OCR0A GAP_F m in
      set_state OW0_READ_RELEASE m
  | OW0_READ_RELEASE =>
      set_state OW0_IDLE m
  end.

(** One compare-match period of timer0 seen from the spinning caller. *)
Definition compare_match (m : machine) : machine :=
  {| io := io m;
     ow_state := ow_state m;
     ow_bit := ow_bit m;
     pin_in := pin_in m;
     log := Match (driving m) (io m OCR0A) :: log m |}.

Definition period (m : machine) : machine :=
  if irq_armed m then ISR (compare_match m) else m.

(** while (onewire0.state != OW0_IDLE) { } *)
Fixpoint busy_wait (fuel : nat) (m : machine) : option machine :=
  if is_idle (ow_state m) then Some m
  else match fuel with
       | O => None
       | S fuel' => busy_wait fuel' (period m)
       end.

(** The statements of _writebit before its busy-wait. *)
Definition _writebit_arm (value : Z) (m : machine) : machine :=
  let m := store TCNT0 0 m in
  if negb (value =? 0) then
    let m := store OCR0A GAP_A m in
    let m := set_state OW0_WRITE1_LOW m in
    _pulllow m
  else
    let m := store OCR0A GAP_C m in
    let m := set_state OW0_WRITE0_LOW m in
    _pulllow m.

Definition _writebit (fuel : nat) (value : Z) (m : machine) : option machine :=
  busy_wait fuel (_writebit_arm value m).

(** The statements of _readbit before its busy-wait. *)
Definition _readbit_arm (m : machine) : machine :=
  let m := store TCNT0 0 m in
  let m := store OCR0A GAP_A m in
  let m := set_state OW0_READ_LOW m in
  _pulllow m.

Definition _readbit (fuel : nat) (m : machine) : option (Z * machine) :=
  match busy_wait fuel (_readbit_arm m) with
  | Some m => Some (ow_bit m, m)
  | None => None
  end.

(** for (bit = 0; bit < 8; bit++) { _writebit(byte & 1); byte >>= 1; }
    with [n] the iterations still to run. *)
Fixpoint writebyte_loop (fuel : nat) (n : nat) (byte : Z) (m : machine)
  : option machine :=
  match n with
  | O => Some m
  | S n' =>
      match _writebit fuel (Z.land byte 1) m with
      | Some m => writebyte_loop fuel n' (wrap8 (Z.shiftr byte 1)) m
      | None => None
      end
  end.

Definition onewire0_writebyte (fuel : nat) (byte : Z) (m : machine)
  : option machine :=
  let m := _starttimer m in
  writebyte_loop fuel 8 byte m.

(** for (bit = 0; bit < 8; bit++) { if (_readbit()) byte |= 0x80; byte >>= 1; }
    with [n] the iterations still to run. *)
Fixpoint readbyte_loop (fuel : nat) (n : nat) (byte : Z) (m : machine)
  : option (Z * machine) :=
  match n with
  | O => Some (byte, m)
  | S n' =>
      match _readbit fuel m with
      | Some (b, m) =>
          let byte := if negb (b =? 0) then wrap8 (Z.lor byte 128) else byte in
          readbyte_loop fuel n' (wrap8 (Z.shiftr byte 1)) m
      | None => None
      end
  end.

Definition onewire0_readbyte (fuel : nat) (m : machine) : option (Z * machine) :=
  let m := _starttimer m in
  readbyte_loop fuel 8 0 m.

(** ** What the log shows *)

(** The bit slots started, in order: a store of OW0_WRITE1_LOW to
    onewire0.state starts a write-1 slot, a store of OW0_WRITE0_LOW a
    write-0 slot. *)
Fixpoint written_bits (h : list event) : list Z :=
  match h with
  | [] => []
  | SetState OW0_WRITE1_LOW :: h' => 1 :: written_bits h'
  | SetState OW0_WRITE0_LOW :: h' => 0 :: written_bits h'
  | _ :: h' => written_bits h'
  end.

(** The number of read slots started. *)
Fixpoint read_slot_count (h : list event) : nat :=
  match h with
  | [] => O
  | SetState OW0_READ_LOW :: h' => S (read_slot_count h')
  | _ :: h' => read_slot_count h'
  end.

(** The bits the handler stored into onewire0.bit, in order. *)
Fixpoint sampled_bits (h : list event) : list Z :=
  match h with
  | [] => []
  | SetBit b :: h' => b :: sampled_bits h'
  | _ :: h' => sampled_bits h'
  end.

(** The timer periods that elapsed, in order: whether the pin was driven
    and the compare value of the period. *)
Fixpoint pulses (h : list event) : list (bool * Z) :=
  match h with
  | [] => []
  | Match low ticks :: h' => (low, ticks) :: pulses h'
  | _ :: h' => pulses h'
  end.

(** ** Machines to run on *)

Definition reset_machine (pins : list Z) : machine :=
  {| io := fun _ => 0;
     ow_state := OW0_IDLE;
     ow_bit := 0;
     pin_in := pins;
     log := [] |}.

Definition booted (pins : list Z) : machine := onewire0_init (reset_machine pins).

(** The PINB reading of a line at level [b]. *)
Definition pin_level (b : Z) : Z := if b =? 0 then 0 else PIN.

(** write_byte(v) on one device, then read_byte() on a device whose pin
    shows, slot by slot, the bits the first one wrote. *)
Definition loopback (fuel : nat) (v : Z) : option Z :=
  match onewire0_writebyte fuel v (booted []) with
  | Some mw =>
      match onewire0_readbyte fuel
              (booted (map pin_level (written_bits (history mw)))) with
      | Some (r, _) => Some r
      | None => None
      end
  | None => None
  end.

(** The bit the handler stores for a PINB reading. *)
Definition sample_of (pinb : Z) : Z := if Z.land pinb PIN =? 0 then 0 else 1.

(** The bit the [k]-th coming load of PINB will give. *)
Definition sampled (pins : list Z) (k : nat) : Z :=
  sample_of (nth k (map wrap8 pins) PIN).

(** A byte from its bits, least-significant first. *)
Fixpoint lsb_first (bits : list Z) : Z :=
  match bits with
  | [] => 0
  | b :: bits' => b + 2 * lsb_first bits'
  end.

(** The slot a call of _writebit runs: the arming statements, then two runs
    of the handler. *)
Definition write_slot (value : Z) (m : machine) : machine :=
  ISR (compare_match (ISR (compare_match (_writebit_arm value m)))).

(** The slot a call of _readbit runs: the arming statements, then three
    runs of the handler. *)
Definition read_slot (m : machine) : machine :=
  ISR (compare_match (ISR (compare_match (ISR (compare_match (_readbit_arm m)))))).

(** The eight slots of onewire0_writebyte, and the eight of
    onewire0_readbyte with its accumulator, once every busy-wait has
    returned. *)
Fixpoint write_slots (n : nat) (byte : Z) (m : machine) : machine :=
  match n with
  | O => m
  | S n' => write_slots n' (wrap8 (Z.shiftr byte 1)) (write_slot (Z.land byte 1) m)
  end.

Fixpoint read_slots (n : nat) (byte : Z) (m : machine) : Z * machine :=
  match n with
  | O => (byte, m)
  | S n' =>
      let m1 := read_slot m in
      let byte := if negb (ow_bit m1 =? 0) then wrap8 (Z.lor byte 128) else byte in
      read_slots n' (wrap8 (Z.shiftr byte 1)) m1
  end.

(** The accumulator of onewire0_readbyte over the bits read. *)
Definition accumulate (bits : list Z) (byte : Z) : Z :=
  fold_left
    (fun byte b =>
       wrap8 (Z.shiftr (if negb (b =? 0) then wrap8 (Z.lor byte 128) else byte) 1))
    bits byte.

(** ** The handler as the specification's transition table *)

Record view : Type := mkView {
  v_state : onewire0_state;
  v_compare : Z;
  v_driving : bool;
  v_bit : Z
}.

Definition view_of (m : machine) : view :=
  {| v_state := ow_state m;
     v_compare := io m OCR0A;
     v_driving := driving m;
     v_bit := ow_bit m |}.

(** The table of the specification, row by row; [level] is the level the
    pin shows. *)
Definition spec_table_step (level : Z) (v : view) : view :=
  match v_state v with
  | OW0_IDLE => v
  | OW0_WRITE0_LOW => mkView OW0_WRITE0_RELEASE GAP_D false (v_bit v)
  | OW0_WRITE0_RELEASE => mkView OW0_IDLE (v_compare v) (v_driving v) (v_bit v)
  | OW0_WRITE1_LOW => mkView OW0_WRITE1_RELEASE GAP_B false (v_bit v)
  | OW0_WRITE1_RELEASE => mkView OW0_IDLE (v_compare v) (v_driving v) (v_bit v)
  | OW0_READ_LOW => mkView OW0_READ_SAMPLE GAP_E false (v_bit v)
  | OW0_READ_SAMPLE => mkView OW0_READ_RELEASE GAP_F (v_driving v) level
  | OW0_READ_RELEASE => mkView OW0_IDLE (v_compare v) (v_driving v) (v_bit v)
  end.

(** The states in which the handler releases the bus. *)
Definition releases (s : onewire0_state) : bool :=
  match s with
  | OW0_WRITE0_LOW | OW0_WRITE1_LOW | OW0_READ_LOW => true
  | _ => false
  end.

(** ** Pin traces and the walk of the state machine *)

(** The timer periods of a write slot for a bit, and of a read slot. *)
Definition write_pulses (b : Z) : list (bool * Z) :=
  if b =? 0 then [(true, GAP_C); (false, GAP_D)]
  else [(true, GAP_A); (false, GAP_B)].

Definition read_pulses : list (bool * Z) :=
  [(true, GAP_A); (false, GAP_E); (false, GAP_F)].

(** The compare values of a run of periods, added up. *)
Definition ticks (ps : list (bool * Z)) : Z :=
  fold_right (fun p acc => snd p + acc) 0 ps.

(** The loads of PINB, in order. *)
Fixpoint pinb_loads (h : list event) : list Z :=
  match h with
  | [] => []
  | LoadPINB v :: h' => v :: pinb_loads h'
  | _ :: h' => pinb_loads h'
  end.

(** The stores to DDRB, in order. *)
Fixpoint ddrb_stores (h : list event) : list Z :=
  match h with
  | [] => []
  | Store DDRB v :: h' => v :: ddrb_stores h'
  | _ :: h' => ddrb_stores h'
  end.

(** The state the handler leaves for each state it finds. *)
Definition next_state (s : onewire0_state) : onewire0_state :=
  match s with
  | OW0_IDLE => OW0_IDLE
  | OW0_WRITE0_LOW => OW0_WRITE0_RELEASE
  | OW0_WRITE0_RELEASE => OW0_IDLE
  | OW0_WRITE1_LOW => OW0_WRITE1_RELEASE
  | OW0_WRITE1_RELEASE => OW0_IDLE
  | OW0_READ_LOW => OW0_READ_SAMPLE
  | OW0_READ_SAMPLE => OW0_READ_RELEASE
  | OW0_READ_RELEASE => OW0_IDLE
  end.

(** The number of handler runs that bring a state to OW0_IDLE. *)
Definition steps_to_idle (s : onewire0_state) : nat :=
  match s with
  | OW0_IDLE => 0
  | OW0_WRITE0_LOW | OW0_WRITE1_LOW => 2
  | OW0_WRITE0_RELEASE | OW0_WRITE1_RELEASE => 1
  | OW0_READ_LOW => 3
  | OW0_READ_SAMPLE => 2
  | OW0_READ_RELEASE => 1
  end.

(** [n] timer periods in a row. *)
Fixpoint periods (n : nat) (m : machine) : machine :=
  match n with
  | O => m
  | S n' => periods n' (period m)
  end.

(** The bits of a byte, least-significant first. *)
Definition bits_of (byte : Z) : list Z :=
  map (fun k => Z.b2z (Z.testbit byte (Z.of_nat k))) (seq 0 8).

(** Two values of DDRB that agree on every pin but the driver's. *)
Definition same_other_pins (d d' : Z) : Prop :=
  forall k, 0 <= k < 8 -> k <> PORTB0 -> Z.testbit d' k = Z.testbit d k.

(** From [m] to [m'] the other pins of port B were left alone: DDRB ends
    as it was but for the driver's pin, so did every value stored to it on
    the way, and PORTB, OCR0B, TCCR0A and TIMSK are as they were. *)
Definition keeps_other_pins (m m' : machine) : Prop :=
  same_other_pins (io m DDRB) (io m' DDRB) /\
  io m' PORTB = io m PORTB /\ io m' OCR0B = io m OCR0B /\
  io m' TCCR0A = io m TCCR0A /\ io m' TIMSK = io m TIMSK /\
  exists l,
    ddrb_stores (history m') = ddrb_stores (history m) ++ l /\
    Forall (same_other_pins (io m DDRB)) l.

(** * Proofs *)

(** ** Bits of the registers *)

Lemma wrap8_range z : 0 <= wrap8 z < 256.
Proof. unfold wrap8. apply Z.mod_pos_bound. lia. Qed.

Lemma wrap8_small z : 0 <= z < 256 -> wrap8 z = z.
Proof. intros H. unfold wrap8. apply Z.mod_small. exact H. Qed.

Lemma wrap8_testbit z k : 0 <= k < 8 -> Z.testbit (wrap8 z) k = Z.testbit z k.
Proof.
  intros H. unfold wrap8. change 256 with (2 ^ 8).
  apply Z.mod_pow2_bits_low. lia.
Qed.

Lemma released_bit d : Z.testbit (wrap8 (Z.land d (Z.lnot PIN))) PORTB0 = false.
Proof.
  rewrite wrap8_testbit by (unfold PORTB0; lia).
  rewrite Z.land_spec, Z.lnot_spec by (unfold PORTB0; lia).
  apply andb_false_r.
Qed.

Lemma pulled_bit d : Z.testbit (wrap8 (Z.lor d PIN)) PORTB0 = true.
Proof.
  rewrite wrap8_testbit by (unfold PORTB0; lia).
  rewrite Z.lor_spec. apply orb_true_r.
Qed.

Lemma prescaler_set_runs x :
  negb (Z.land (wrap8 (Z.lor x PRESCALER))
          (Z.lor (Z.shiftl 1 CS02) (Z.lor (Z.shiftl 1 CS01) (Z.shiftl 1 CS00)))
        =? 0) = true.
Proof.
  apply negb_true_iff, Z.eqb_neq. intros H.
  apply (f_equal (fun z => Z.testbit z CS01)) in H.
  rewrite Z.land_spec, wrap8_testbit, Z.lor_spec in H by (unfold CS01; lia).
  rewrite orb_true_r in H. discriminate H.
Qed.

Lemma enable_bit_set x :
  Z.testbit (wrap8 (Z.lor x (Z.shiftl 1 OCIE0A))) OCIE0A = true.
Proof.
  rewrite wrap8_testbit by (unfold OCIE0A; lia).
  rewrite Z.lor_spec. apply orb_true_r.
Qed.

(** The enum fits the [volatile uint8_t state] field, one code per state. *)
Lemma state_code_byte s : 0 <= state_code s < 256.
Proof. destruct s; simpl; lia. Qed.

Lemma state_code_inj s t : state_code s = state_code t -> s = t.
Proof. destruct s, t; simpl; intros H; reflexivity || discriminate H. Qed.

(** ** The interrupt stays armed *)

Lemma irq_enabled_init m : irq_enabled (onewire0_init m) = true.
Proof. unfold irq_enabled. cbn. apply enable_bit_set. Qed.

Lemma irq_enabled_starttimer m : irq_enabled (_starttimer m) = irq_enabled m.
Proof. reflexivity. Qed.

Lemma irq_armed_starttimer m : irq_enabled m = true -> irq_armed (_starttimer m) = true.
Proof.
  intros H. unfold irq_armed. rewrite irq_enabled_starttimer, H.
  unfold timer_running. cbn [_starttimer store io reg_eqb].
  rewrite prescaler_set_runs. reflexivity.
Qed.

Lemma irq_armed_ISR m : irq_armed (ISR m) = irq_armed m.
Proof. unfold ISR. destruct (ow_state m); reflexivity. Qed.

Lemma irq_armed_compare_match m : irq_armed (compare_match m) = irq_armed m.
Proof. reflexivity. Qed.

Lemma irq_armed_writebit_arm value m : irq_armed (_writebit_arm value m) = irq_armed m.
Proof. unfold _writebit_arm. destruct (negb (value =? 0)); reflexivity. Qed.

Lemma irq_armed_readbit_arm m : irq_armed (_readbit_arm m) = irq_armed m.
Proof. reflexivity. Qed.

Lemma irq_armed_write_slot value m : irq_armed (write_slot value m) = irq_armed m.
Proof.
  unfold write_slot.
  repeat (rewrite irq_armed_ISR || rewrite irq_armed_compare_match).
  apply irq_armed_writebit_arm.
Qed.

Lemma irq_armed_read_slot m : irq_armed (read_slot m) = irq_armed m.
Proof.
  unfold read_slot.
  repeat (rewrite irq_armed_ISR || rewrite irq_armed_compare_match).
  apply irq_armed_readbit_arm.
Qed.

(** ** The busy-wait *)

Lemma busy_wait_done fuel m :
  is_idle (ow_state m) = true -> busy_wait fuel m = Some m.
Proof. intros H. destruct fuel; simpl; rewrite H; reflexivity. Qed.

Lemma busy_wait_step fuel m :
  is_idle (ow_state m) = false -> irq_armed m = true ->
  busy_wait (S fuel) m = busy_wait fuel (ISR (compare_match m)).
Proof. intros H A. simpl. rewrite H. unfold period. rewrite A. reflexivity. Qed.

Lemma busy_wait_starved m :
  is_idle (ow_state m) = false -> busy_wait 0 m = None.
Proof. intros H. simpl. rewrite H. reflexivity. Qed.

Lemma busy_wait_idle fuel : forall m m',
  busy_wait fuel m = Some m' -> ow_state m' = OW0_IDLE.
Proof.
  induction fuel as [|fuel IH]; intros m m'; simpl;
    destruct (ow_state m) eqn:E; simpl; intros H;
    try discriminate H; try (injection H as <-; exact E);
    apply (IH _ _ H).
Qed.

Lemma busy_wait_unarmed fuel : forall m,
  irq_armed m = false -> is_idle (ow_state m) = false -> busy_wait fuel m = None.
Proof.
  induction fuel as [|fuel IH]; intros m A H; simpl; rewrite H.
  - reflexivity.
  - unfold period. rewrite A. apply IH; assumption.
Qed.

Ltac run_slot :=
  repeat (rewrite busy_wait_step;
          [ | solve [reflexivity]
            | solve [repeat (rewrite irq_armed_ISR || rewrite irq_armed_compare_match);
                     assumption] ]).

Lemma writebit_run fuel value m :
  irq_armed m = true -> (2 <= fuel)%nat ->
  _writebit fuel value m = Some (write_slot value m).
Proof.
  intros A F. destruct fuel as [|[|fuel]]; try lia.
  rewrite <- (irq_armed_writebit_arm value) in A.
  unfold _writebit, write_slot. unfold _writebit_arm in *.
  destruct (negb (value =? 0)); run_slot; apply busy_wait_done; reflexivity.
Qed.

Lemma writebit_short fuel value m :
  irq_armed m = true -> (fuel < 2)%nat -> _writebit fuel value m = None.
Proof.
  intros A F. destruct fuel as [|[|fuel]]; try lia;
    rewrite <- (irq_armed_writebit_arm value) in A;
    unfold _writebit; unfold _writebit_arm in *;
    destruct (negb (value =? 0)); run_slot; apply busy_wait_starved; reflexivity.
Qed.

Lemma busy_wait_read_run fuel m :
  irq_armed m = true -> (3 <= fuel)%nat ->
  busy_wait fuel (_readbit_arm m) = Some (read_slot m).
Proof.
  intros A F. destruct fuel as [|[|[|fuel]]]; try lia.
  rewrite <- irq_armed_readbit_arm in A.
  unfold read_slot. unfold _readbit_arm in *.
  run_slot; apply busy_wait_done; reflexivity.
Qed.

Lemma readbit_run fuel m :
  irq_armed m = true -> (3 <= fuel)%nat ->
  _readbit fuel m = Some (ow_bit (read_slot m), read_slot m).
Proof.
  intros A F. unfold _readbit. rewrite busy_wait_read_run by assumption.
  reflexivity.
Qed.

Lemma readbit_short fuel m :
  irq_armed m = true -> (fuel < 3)%nat -> _readbit fuel m = None.
Proof.
  intros A F. unfold _readbit.
  replace (busy_wait fuel (_readbit_arm m)) with (@None machine); [reflexivity|].
  symmetry. destruct fuel as [|[|[|fuel]]]; try lia;
    rewrite <- irq_armed_readbit_arm in A; unfold _readbit_arm in *;
    run_slot; apply busy_wait_starved; reflexivity.
Qed.

(** ** What one slot does *)

Lemma write_slot_state value m : ow_state (write_slot value m) = OW0_IDLE.
Proof.
  unfold write_slot, _writebit_arm. destruct (negb (value =? 0)); reflexivity.
Qed.

Lemma write_slot_released value m : driving (write_slot value m) = false.
Proof.
  unfold write_slot, _writebit_arm.
  destruct (negb (value =? 0)); apply released_bit.
Qed.

Lemma write_slot_log value m :
  log (write_slot value m) =
  [ SetState OW0_IDLE;
    Match false (if value =? 0 then GAP_D else GAP_B);
    SetState (if value =? 0 then OW0_WRITE0_RELEASE else OW0_WRITE1_RELEASE);
    Store OCR0A (if value =? 0 then GAP_D else GAP_B);
    Store DDRB (wrap8 (Z.land (wrap8 (Z.lor (io m DDRB) PIN)) (Z.lnot PIN)));
    Match true (if value =? 0 then GAP_C else GAP_A);
    Store DDRB (wrap8 (Z.lor (io m DDRB) PIN));
    SetState (if value =? 0 then OW0_WRITE0_LOW else OW0_WRITE1_LOW);
    Store OCR0A (if value =? 0 then GAP_C else GAP_A);
    Store TCNT0 0 ] ++ log m.
Proof.
  unfold write_slot, _writebit_arm.
  destruct (value =? 0);
    cbn [negb ISR compare_match _pulllow _release store set_state
         ow_state log app];
    unfold driving;
    cbn [compare_match _pulllow _release store set_state io reg_eqb];
    rewrite pulled_bit, released_bit; reflexivity.
Qed.

Lemma write_slot_frame value m :
  pin_in (write_slot value m) = pin_in m /\
  ow_bit (write_slot value m) = ow_bit m.
Proof.
  unfold write_slot, _writebit_arm.
  destruct (negb (value =? 0)); repeat split; reflexivity.
Qed.

Lemma read_slot_state m : ow_state (read_slot m) = OW0_IDLE.
Proof. reflexivity. Qed.

Lemma read_slot_released m : driving (read_slot m) = false.
Proof. apply released_bit. Qed.

Lemma read_slot_bit m : ow_bit (read_slot m) = sample_of (next_PINB m).
Proof.
  unfold read_slot, _readbit_arm, sample_of.
  cbn [ISR compare_match _pulllow _release store set_state set_bit load_PINB
       ow_state ow_bit].
  unfold next_PINB.
  cbn [compare_match _pulllow _release store set_state pin_in].
  destruct (Z.land _ PIN =? 0); reflexivity.
Qed.

Lemma read_slot_pin_in m : pin_in (read_slot m) = tl (pin_in m).
Proof. reflexivity. Qed.

Lemma read_slot_log m :
  log (read_slot m) =
  [ SetState OW0_IDLE;
    Match false GAP_F;
    SetState OW0_READ_RELEASE;
    Store OCR0A GAP_F;
    SetBit (sample_of (next_PINB m));
    LoadPINB (next_PINB m);
    Match false GAP_E;
    SetState OW0_READ_SAMPLE;
    Store OCR0A GAP_E;
    Store DDRB (wrap8 (Z.land (wrap8 (Z.lor (io m DDRB) PIN)) (Z.lnot PIN)));
    Match true GAP_A;
    Store DDRB (wrap8 (Z.lor (io m DDRB) PIN));
    SetState OW0_READ_LOW;
    Store OCR0A GAP_A;
    Store TCNT0 0 ] ++ log m.
Proof.
  unfold read_slot, _readbit_arm, sample_of.
  cbn [ISR compare_match _pulllow _release store set_state set_bit load_PINB
       ow_state ow_bit log app].
  unfold driving, next_PINB.
  cbn [compare_match _pulllow _release store set_state set_bit load_PINB
       pin_in io reg_eqb fst snd].
  rewrite pulled_bit, !released_bit.
  destruct (Z.land _ PIN =? 0); reflexivity.
Qed.

Lemma write_slot_history value m :
  history (write_slot value m) =
  history m ++
  [ Store TCNT0 0;
    Store OCR0A (if value =? 0 then GAP_C else GAP_A);
    SetState (if value =? 0 then OW0_WRITE0_LOW else OW0_WRITE1_LOW);
    Store DDRB (wrap8 (Z.lor (io m DDRB) PIN));
    Match true (if value =? 0 then GAP_C else GAP_A);
    Store DDRB (wrap8 (Z.land (wrap8 (Z.lor (io m DDRB) PIN)) (Z.lnot PIN)));
    Store OCR0A (if value =? 0 then GAP_D else GAP_B);
    SetState (if value =? 0 then OW0_WRITE0_RELEASE else OW0_WRITE1_RELEASE);
    Match false (if value =? 0 then GAP_D else GAP_B);
    SetState OW0_IDLE ].
Proof.
  unfold history. rewrite write_slot_log, rev_app_distr. reflexivity.
Qed.

Lemma read_slot_history m :
  history (read_slot m) =
  history m ++
  [ Store TCNT0 0;
    Store OCR0A GAP_A;
    SetState OW0_READ_LOW;
    Store DDRB (wrap8 (Z.lor (io m DDRB) PIN));
    Match true GAP_A;
    Store DDRB (wrap8 (Z.land (wrap8 (Z.lor (io m DDRB) PIN)) (Z.lnot PIN)));
    Store OCR0A GAP_E;
    SetState OW0_READ_SAMPLE;
    Match false GAP_E;
    LoadPINB (next_PINB m);
    SetBit (sample_of (next_PINB m));
    Store OCR0A GAP_F;
    SetState OW0_READ_RELEASE;
    Match false GAP_F;
    SetState OW0_IDLE ].
Proof.
  unfold history. rewrite read_slot_log, rev_app_distr. reflexivity.
Qed.

(** ** The projections of the log distribute over concatenation *)

Lemma written_bits_app h1 h2 :
  written_bits (h1 ++ h2) = written_bits h1 ++ written_bits h2.
Proof.
  induction h1 as [|e h1 IH]; [reflexivity|].
  destruct e as [r v|v|s|b|low ticks]; try destruct s; simpl; rewrite IH; reflexivity.
Qed.

Lemma read_slot_count_app h1 h2 :
  read_slot_count (h1 ++ h2) = (read_slot_count h1 + read_slot_count h2)%nat.
Proof.
  induction h1 as [|e h1 IH]; [reflexivity|].
  destruct e as [r v|v|s|b|low ticks]; try destruct s; simpl; rewrite IH; reflexivity.
Qed.

Lemma sampled_bits_app h1 h2 :
  sampled_bits (h1 ++ h2) = sampled_bits h1 ++ sampled_bits h2.
Proof.
  induction h1 as [|e h1 IH]; [reflexivity|].
  destruct e; simpl; rewrite IH; reflexivity.
Qed.

Lemma pulses_app h1 h2 : pulses (h1 ++ h2) = pulses h1 ++ pulses h2.
Proof.
  induction h1 as [|e h1 IH]; [reflexivity|].
  destruct e; simpl; rewrite IH; reflexivity.
Qed.

(** ** The bit primitives *)

(** C5. With the compare-match interrupt armed, _writebit(value) stores 0
    to the timer counter, then programs duration A and state Write1Low for
    a nonzero value, duration C and state Write0Low for zero, then makes
    the pin an output (bus low), and returns only after the handler has run
    twice and stored Idle: with less fuel than two periods it has not
    returned; on return the state is Idle and the pin is not driving. *)
Theorem writebit_slot : forall fuel value m,
  irq_armed m = true ->
  ((fuel < 2)%nat -> _writebit fuel value m = None) /\
  ((2 <= fuel)%nat ->
   exists m',
     _writebit fuel value m = Some m' /\
     history m' =
       history m ++
       [ Store TCNT0 0;
         Store OCR0A (if value =? 0 then GAP_C else GAP_A);
         SetState (if value =? 0 then OW0_WRITE0_LOW else OW0_WRITE1_LOW);
         Store DDRB (wrap8 (Z.lor (io m DDRB) PIN));
         Match true (if value =? 0 then GAP_C else GAP_A);
         Store DDRB (wrap8 (Z.land (wrap8 (Z.lor (io m DDRB) PIN)) (Z.lnot PIN)));
         Store OCR0A (if value =? 0 then GAP_D else GAP_B);
         SetState (if value =? 0 then OW0_WRITE0_RELEASE else OW0_WRITE1_RELEASE);
         Match false (if value =? 0 then GAP_D else GAP_B);
         SetState OW0_IDLE ] /\
     driving (_writebit_arm value m) = true /\
     ow_state m' = OW0_IDLE /\
     driving m' = false).
Proof.
  intros fuel value m A. split; intros F.
  - apply writebit_short; assumption.
  - exists (write_slot value m). split; [apply writebit_run; assumption|].
    split; [apply write_slot_history|].
    split; [|split; [apply write_slot_state | apply write_slot_released]].
    unfold _writebit_arm. destruct (negb (value =? 0)); apply pulled_bit.
Qed.

(** C6. With the compare-match interrupt armed, _readbit() stores 0 to the
    timer counter, programs duration A, sets state ReadLow, makes the pin
    an output, and returns only after the handler has run three times and
    stored Idle; the value returned is the bit the handler derived from its
    load of PINB in the ReadSample step of this slot and stored in
    onewire0.bit. *)
Theorem readbit_slot : forall fuel m,
  irq_armed m = true ->
  ((fuel < 3)%nat -> _readbit fuel m = None) /\
  ((3 <= fuel)%nat ->
   exists m',
     _readbit fuel m = Some (sample_of (next_PINB m), m') /\
     history m' =
       history m ++
       [ Store TCNT0 0;
         Store OCR0A GAP_A;
         SetState OW0_READ_LOW;
         Store DDRB (wrap8 (Z.lor (io m DDRB) PIN));
         Match true GAP_A;
         Store DDRB (wrap8 (Z.land (wrap8 (Z.lor (io m DDRB) PIN)) (Z.lnot PIN)));
         Store OCR0A GAP_E;
         SetState OW0_READ_SAMPLE;
         Match false GAP_E;
         LoadPINB (next_PINB m);
         SetBit (sample_of (next_PINB m));
         Store OCR0A GAP_F;
         SetState OW0_READ_RELEASE;
         Match false GAP_F;
         SetState OW0_IDLE ] /\
     ow_bit m' = sample_of (next_PINB m) /\
     pin_in m' = tl (pin_in m) /\
     ow_state m' = OW0_IDLE /\
     driving m' = false).
Proof.
  intros fuel m A. split; intros F.
  - apply readbit_short; assumption.
  - exists (read_slot m).
    rewrite readbit_run, read_slot_bit by assumption.
    repeat split.
    + apply read_slot_history.
    + apply read_slot_released.
Qed.

(** ** The byte loops *)

Lemma writebyte_loop_run fuel : forall n byte m,
  irq_armed m = true -> (2 <= fuel)%nat ->
  writebyte_loop fuel n byte m = Some (write_slots n byte m).
Proof.
  induction n as [|n IH]; intros byte m A F; simpl; [reflexivity|].
  rewrite writebit_run by assumption.
  apply IH; [rewrite irq_armed_write_slot|]; assumption.
Qed.

Lemma readbyte_loop_run fuel : forall n byte m,
  irq_armed m = true -> (3 <= fuel)%nat ->
  readbyte_loop fuel n byte m = Some (read_slots n byte m).
Proof.
  induction n as [|n IH]; intros byte m A F; simpl; [reflexivity|].
  rewrite readbit_run by assumption.
  apply IH; [rewrite irq_armed_read_slot|]; assumption.
Qed.

Lemma writebyte_run fuel byte m :
  irq_enabled m = true -> (2 <= fuel)%nat ->
  onewire0_writebyte fuel byte m = Some (write_slots 8 byte (_starttimer m)).
Proof.
  intros E F. unfold onewire0_writebyte.
  apply writebyte_loop_run; [apply irq_armed_starttimer|]; assumption.
Qed.

Lemma readbyte_run fuel m :
  irq_enabled m = true -> (3 <= fuel)%nat ->
  onewire0_readbyte fuel m = Some (read_slots 8 0 (_starttimer m)).
Proof.
  intros E F. unfold onewire0_readbyte.
  apply readbyte_loop_run; [apply irq_armed_starttimer|]; assumption.
Qed.

Lemma write_slots_state : forall n byte m,
  ow_state m = OW0_IDLE -> ow_state (write_slots n byte m) = OW0_IDLE.
Proof.
  induction n as [|n IH]; intros byte m H; simpl; [exact H|].
  apply IH, write_slot_state.
Qed.

Lemma read_slots_state : forall n byte m,
  ow_state m = OW0_IDLE -> ow_state (snd (read_slots n byte m)) = OW0_IDLE.
Proof.
  induction n as [|n IH]; intros byte m H; simpl; [exact H|].
  apply IH, read_slot_state.
Qed.

Lemma writebyte_loop_idle fuel : forall n byte m m',
  ow_state m = OW0_IDLE ->
  writebyte_loop fuel n byte m = Some m' -> ow_state m' = OW0_IDLE.
Proof.
  induction n as [|n IH]; intros byte m m' I H; simpl in H.
  - injection H as <-. exact I.
  - unfold _writebit in H.
    destruct (busy_wait fuel (_writebit_arm (Z.land byte 1) m)) as [m1|] eqn:W;
      [|discriminate H].
    apply (IH _ _ _ (busy_wait_idle _ _ _ W) H).
Qed.

Lemma readbyte_loop_idle fuel : forall n byte m r m',
  ow_state m = OW0_IDLE ->
  readbyte_loop fuel n byte m = Some (r, m') -> ow_state m' = OW0_IDLE.
Proof.
  induction n as [|n IH]; intros byte m r m' I H; simpl in H.
  - injection H as _ <-. exact I.
  - unfold _readbit in H.
    destruct (busy_wait fuel (_readbit_arm m)) as [m1|] eqn:W; [|discriminate H].
    apply (IH _ _ _ _ (busy_wait_idle _ _ _ W) H).
Qed.

(** ** The interrupt handler *)

Lemma ISR_driving m :
  driving (ISR m) = if releases (ow_state m) then false else driving m.
Proof.
  unfold ISR, driving.
  destruct (ow_state m); cbn [releases]; try reflexivity; apply released_bit.
Qed.

(** C4. Seen on (state, compare register, pin direction, sampled bit) the
    handler is the transition table of the specification, the level of the
    ReadSample row being the bit derived from the load of PINB; it leaves
    every register other than OCR0A and DDRB as it was, changes DDRB only
    by clearing the pin's bit in the three states that release the bus,
    consumes a PINB reading only in ReadSample, and in Idle changes
    nothing at all. *)
Theorem ISR_transition_table : forall m,
  view_of (ISR m) = spec_table_step (sample_of (next_PINB m)) (view_of m) /\
  (io (ISR m) PORTB = io m PORTB /\ io (ISR m) TCNT0 = io m TCNT0 /\
   io (ISR m) OCR0B = io m OCR0B /\ io (ISR m) TCCR0A = io m TCCR0A /\
   io (ISR m) TCCR0B = io m TCCR0B /\ io (ISR m) TIFR = io m TIFR /\
   io (ISR m) TIMSK = io m TIMSK) /\
  io (ISR m) DDRB =
    (if releases (ow_state m)
     then wrap8 (Z.land (io m DDRB) (Z.lnot PIN)) else io m DDRB) /\
  pin_in (ISR m) =
    (match ow_state m with OW0_READ_SAMPLE => tl (pin_in m) | _ => pin_in m end) /\
  match ow_state m with OW0_IDLE => ISR m = m | _ => True end.
Proof.
  intros m. split; [|split; [|split; [|split]]].
  - unfold view_of, spec_table_step. cbn [v_state v_compare v_driving v_bit].
    rewrite ISR_driving. unfold ISR, sample_of.
    destruct (ow_state m) eqn:E; cbn [releases]; rewrite ?E; try reflexivity.
    cbn [load_PINB set_bit store set_state ow_state ow_bit io reg_eqb driving].
    destruct (Z.land (next_PINB m) PIN =? 0); reflexivity.
  - unfold ISR. destruct (ow_state m); repeat split.
  - unfold ISR. destruct (ow_state m); reflexivity.
  - unfold ISR. destruct (ow_state m); reflexivity.
  - unfold ISR. destruct (ow_state m); exact I || reflexivity.
Qed.

(** C9. The handler never makes the pin an output: a step of it either
    clears the pin's DDRB bit (in the three states that release the bus) or
    leaves the direction as it was, and so does a whole timer period; the
    bit is set by the arming statements of _writebit and _readbit, before
    their busy-wait, and by nothing else in the driver. *)
Theorem handler_never_pulls_low : forall value m,
  driving (ISR m) = (if releases (ow_state m) then false else driving m) /\
  (driving (ISR m) = driving m \/ driving (ISR m) = false) /\
  (driving (period m) = driving m \/ driving (period m) = false) /\
  driving (_writebit_arm value m) = true /\
  driving (_readbit_arm m) = true /\
  driving (_starttimer m) = driving m /\
  driving (onewire0_init m) = false.
Proof.
  intros value m.
  assert (H : driving (ISR m) = driving m \/ driving (ISR m) = false).
  { rewrite ISR_driving. destruct (releases (ow_state m)); auto. }
  split; [apply ISR_driving|]. split; [exact H|]. split.
  { unfold period. destruct (irq_armed m); [|auto].
    rewrite ISR_driving. cbn [compare_match ow_state].
    destruct (releases (ow_state m)); auto. }
  split.
  { unfold _writebit_arm. destruct (negb (value =? 0)); apply pulled_bit. }
  split; [apply pulled_bit|]. split; [reflexivity|].
  apply released_bit.
Qed.

(** ** Timing constants *)

Lemma write_slot_pulses value m :
  pulses (history (write_slot value m)) =
  pulses (history m) ++
  (if value =? 0 then [(true, GAP_C); (false, GAP_D)]
   else [(true, GAP_A); (false, GAP_B)]).
Proof.
  rewrite write_slot_history, pulses_app.
  destruct (value =? 0); reflexivity.
Qed.

Lemma read_slot_pulses m :
  pulses (history (read_slot m)) =
  pulses (history m) ++ [(true, GAP_A); (false, GAP_E); (false, GAP_F)].
Proof. rewrite read_slot_history, pulses_app. reflexivity. Qed.

(** C7. The six bit-slot constants are A = 6, B = 64, C = 60, D = 10,
    E = 9, F = 55, and each phase runs on its constant: a write-1 slot is a
    period of 6 with the pin driven then one of 64 released, a write-0 slot
    60 driven then 10 released, a read slot 6 driven, then 9 released up to
    the sample, then 55 released. *)
Theorem gap_constants_programmed : forall fuel value m,
  irq_armed m = true -> (3 <= fuel)%nat -> value <> 0 ->
  (GAP_A = 6 /\ GAP_B = 64 /\ GAP_C = 60 /\ GAP_D = 10 /\ GAP_E = 9 /\ GAP_F = 55) /\
  (exists m1, _writebit fuel value m = Some m1 /\
     pulses (history m1) = pulses (history m) ++ [(true, 6); (false, 64)]) /\
  (exists m0, _writebit fuel 0 m = Some m0 /\
     pulses (history m0) = pulses (history m) ++ [(true, 60); (false, 10)]) /\
  (exists b mr, _readbit fuel m = Some (b, mr) /\
     pulses (history mr) =
     pulses (history m) ++ [(true, 6); (false, 9); (false, 55)]).
Proof.
  intros fuel value m A F V.
  split; [repeat split|]. split; [|split].
  - exists (write_slot value m). split; [apply writebit_run; [assumption|lia]|].
    rewrite write_slot_pulses. apply Z.eqb_neq in V. rewrite V. reflexivity.
  - exists (write_slot 0 m). split; [apply writebit_run; [assumption|lia]|].
    apply write_slot_pulses.
  - exists (ow_bit (read_slot m)), (read_slot m).
    split; [apply readbit_run; assumption|]. apply read_slot_pulses.
Qed.

(** ** Idle before and after *)

(** C8. Entered with the state Idle and the compare-match interrupt
    enabled (as onewire0_init leaves them), onewire0_writebyte and
    onewire0_readbyte return, with the state Idle; so do _writebit and
    _readbit once the timer runs, as it does where the byte routines call
    them.  Whatever the fuel and the timer, a call of any of the four that
    returns returns with the state Idle: a busy-wait that returns returns
    with the state Idle, and one that starts in a non-idle state with the
    interrupt not armed never returns. *)
Theorem idle_before_and_after : forall fuel value byte m,
  ow_state m = OW0_IDLE -> irq_enabled m = true -> (3 <= fuel)%nat ->
  (exists m', onewire0_writebyte fuel byte m = Some m' /\ ow_state m' = OW0_IDLE) /\
  (exists r m', onewire0_readbyte fuel m = Some (r, m') /\ ow_state m' = OW0_IDLE) /\
  (timer_running m = true ->
   (exists m', _writebit fuel value m = Some m' /\ ow_state m' = OW0_IDLE) /\
   (exists b m', _readbit fuel m = Some (b, m') /\ ow_state m' = OW0_IDLE)) /\
  (exists m', _writebit fuel value (_starttimer m) = Some m' /\
              ow_state m' = OW0_IDLE) /\
  (exists b m', _readbit fuel (_starttimer m) = Some (b, m') /\
                ow_state m' = OW0_IDLE) /\
  (forall f m',
     (_writebit f value m = Some m' -> ow_state m' = OW0_IDLE) /\
     (onewire0_writebyte f byte m = Some m' -> ow_state m' = OW0_IDLE) /\
     (forall r, _readbit f m = Some (r, m') -> ow_state m' = OW0_IDLE) /\
     (forall r, onewire0_readbyte f m = Some (r, m') -> ow_state m' = OW0_IDLE)) /\
  (forall f m0 m', busy_wait f m0 = Some m' -> ow_state m' = OW0_IDLE) /\
  (forall f m0, is_idle (ow_state m0) = false -> irq_armed m0 = false ->
                busy_wait f m0 = None).
Proof.
  intros fuel value byte m I E F.
  pose proof (irq_armed_starttimer m E) as As.
  split; [|split; [|split; [|split; [|split; [|split; [|split]]]]]].
  - exists (write_slots 8 byte (_starttimer m)).
    split; [apply writebyte_run; [assumption|lia] | now apply write_slots_state].
  - exists (fst (read_slots 8 0 (_starttimer m))), (snd (read_slots 8 0 (_starttimer m))).
    rewrite <- surjective_pairing.
    split; [apply readbyte_run; assumption | now apply read_slots_state].
  - intros T.
    assert (A : irq_armed m = true) by (unfold irq_armed; rewrite T, E; reflexivity).
    split.
    + exists (write_slot value m).
      split; [apply writebit_run; [assumption|lia] | apply write_slot_state].
    + exists (ow_bit (read_slot m)), (read_slot m).
      split; [apply readbit_run; assumption | apply read_slot_state].
  - exists (write_slot value (_starttimer m)).
    split; [apply writebit_run; [assumption|lia] | apply write_slot_state].
  - exists (ow_bit (read_slot (_starttimer m))), (read_slot (_starttimer m)).
    split; [apply readbit_run; assumption | apply read_slot_state].
  - intros f m'. split; [|split; [|split]].
    + unfold _writebit. apply busy_wait_idle.
    + unfold onewire0_writebyte. apply writebyte_loop_idle. exact I.
    + intros r H. unfold _readbit in H.
      destruct (busy_wait f (_readbit_arm m)) as [m1|] eqn:W; [|discriminate H].
      injection H as _ <-. apply (busy_wait_idle _ _ _ W).
    + intros r. unfold onewire0_readbyte. apply readbyte_loop_idle. exact I.
  - intros f m0 m'. apply busy_wait_idle.
  - intros f m0 N U. apply busy_wait_unarmed; assumption.
Qed.

(** ** onewire0_writebyte: least-significant bit first *)

Lemma low_bit byte : (if Z.land byte 1 =? 0 then 0 else 1) = Z.b2z (Z.testbit byte 0).
Proof.
  change 1 with (Z.ones 1) at 1. rewrite Z.land_ones by lia.
  rewrite Z.bit0_mod. change (2 ^ 1) with 2.
  pose proof (Z.mod_pos_bound byte 2 ltac:(lia)) as B.
  destruct (byte mod 2 =? 0) eqn:E.
  - apply Z.eqb_eq in E. symmetry. exact E.
  - apply Z.eqb_neq in E. lia.
Qed.

Lemma shifted_byte byte :
  0 <= byte < 256 -> wrap8 (Z.shiftr byte 1) = Z.shiftr byte 1 /\
                     0 <= Z.shiftr byte 1 < 256.
Proof.
  intros B.
  assert (R : 0 <= Z.shiftr byte 1 < 256).
  { rewrite Z.shiftr_div_pow2 by lia. change (2 ^ 1) with 2.
    split; [apply Z.div_pos; lia | apply Z.div_lt_upper_bound; lia]. }
  split; [apply wrap8_small|]; exact R.
Qed.

Lemma write_slot_bits value m :
  written_bits (history (write_slot value m)) =
  written_bits (history m) ++ [if value =? 0 then 0 else 1].
Proof.
  rewrite write_slot_history, written_bits_app.
  destruct (value =? 0); reflexivity.
Qed.

Lemma write_slots_bits : forall n byte m,
  0 <= byte < 256 ->
  written_bits (history (write_slots n byte m)) =
  written_bits (history m) ++
  map (fun k => Z.b2z (Z.testbit byte (Z.of_nat k))) (seq 0 n).
Proof.
  induction n as [|n IH]; intros byte m B; simpl write_slots.
  - simpl. rewrite app_nil_r. reflexivity.
  - destruct (shifted_byte byte B) as [W R].
    rewrite IH by (rewrite W; exact R).
    rewrite write_slot_bits, low_bit, <- app_assoc. f_equal.
    cbn [seq map app]. f_equal.
    rewrite <- seq_shift, map_map. apply map_ext. intros k.
    rewrite W, Z.shiftr_spec by lia. do 2 f_equal. lia.
Qed.

Lemma starttimer_history m :
  history (_starttimer m) =
  history m ++
  [ Store TIFR (wrap8 (Z.lor (io m TIFR) (Z.shiftl 1 OCF0A)));
    Store TCNT0 0;
    Store TCCR0B (wrap8 (Z.lor (io m TCCR0B) PRESCALER)) ].
Proof.
  unfold history, _starttimer. cbn [store log io reg_eqb].
  cbn [rev]. rewrite <- !app_assoc. reflexivity.
Qed.

(** C3. With the compare-match interrupt enabled, onewire0_writebyte(byte)
    returns after starting exactly eight write slots, the k-th (from 0) for
    bit k of the byte; for 0xA5 the slots are 1,0,1,0,0,1,0,1. *)
Theorem writebyte_lsb_first : forall fuel byte m,
  0 <= byte < 256 -> irq_enabled m = true -> (2 <= fuel)%nat ->
  (exists m',
     onewire0_writebyte fuel byte m = Some m' /\
     written_bits (history m') =
       written_bits (history m) ++
       map (fun k => Z.b2z (Z.testbit byte (Z.of_nat k))) (seq 0 8) /\
     length (written_bits (history m')) =
       (length (written_bits (history m)) + 8)%nat) /\
  (exists m',
     onewire0_writebyte fuel 165 m = Some m' /\
     written_bits (history m') =
       written_bits (history m) ++ [1; 0; 1; 0; 0; 1; 0; 1]).
Proof.
  intros fuel byte m B E F.
  assert (G : forall b, 0 <= b < 256 ->
    written_bits (history (write_slots 8 b (_starttimer m))) =
    written_bits (history m) ++
    map (fun k => Z.b2z (Z.testbit b (Z.of_nat k))) (seq 0 8)).
  { intros b Hb. rewrite write_slots_bits by exact Hb.
    rewrite starttimer_history, written_bits_app.
    cbn [written_bits]. rewrite app_nil_r. reflexivity. }
  split.
  - exists (write_slots 8 byte (_starttimer m)).
    split; [apply writebyte_run; assumption|].
    rewrite (G byte B). split; [reflexivity|].
    rewrite length_app, length_map, length_seq. reflexivity.
  - exists (write_slots 8 165 (_starttimer m)).
    split; [apply writebyte_run; assumption|].
    rewrite (G 165) by lia. reflexivity.
Qed.

(** ** onewire0_readbyte: what the accumulator holds *)

Lemma sampled_head m : sample_of (next_PINB m) = sampled (pin_in m) 0.
Proof. unfold sampled, next_PINB. destruct (pin_in m); reflexivity. Qed.

Lemma sampled_tail pins k : sampled (tl pins) k = sampled pins (S k).
Proof.
  unfold sampled. destruct pins as [|v pins]; [|reflexivity].
  destruct k; reflexivity.
Qed.

Lemma sampled_bool pins k :
  sampled pins k = Z.b2z (negb (Z.land (nth k (map wrap8 pins) PIN) PIN =? 0)).
Proof. unfold sampled, sample_of. destruct (Z.land _ PIN =? 0); reflexivity. Qed.

Lemma read_slot_sampled m :
  sampled_bits (history (read_slot m)) =
  sampled_bits (history m) ++ [sampled (pin_in m) 0].
Proof.
  rewrite read_slot_history, sampled_bits_app, sampled_head. reflexivity.
Qed.

Lemma read_slot_counted m :
  read_slot_count (history (read_slot m)) = S (read_slot_count (history m)).
Proof.
  rewrite read_slot_history, read_slot_count_app. cbn [read_slot_count]. lia.
Qed.

Lemma read_slots_result : forall n byte m,
  fst (read_slots n byte m) = accumulate (map (sampled (pin_in m)) (seq 0 n)) byte /\
  sampled_bits (history (snd (read_slots n byte m))) =
    sampled_bits (history m) ++ map (sampled (pin_in m)) (seq 0 n) /\
  read_slot_count (history (snd (read_slots n byte m))) =
    (read_slot_count (history m) + n)%nat /\
  pin_in (snd (read_slots n byte m)) = skipn n (pin_in m).
Proof.
  induction n as [|n IH]; intros byte m.
  - simpl. rewrite app_nil_r, Nat.add_0_r. auto.
  - cbn [read_slots].
    match goal with |- context [read_slots n ?b _] => specialize (IH b (read_slot m)) end.
    destruct IH as (R & S & C & P).
    rewrite R, S, C, P, read_slot_bit, sampled_head, read_slot_pin_in,
      read_slot_sampled, read_slot_counted.
    assert (T : map (sampled (tl (pin_in m))) (seq 0 n) =
                map (sampled (pin_in m)) (seq 1 n)).
    { rewrite <- seq_shift, map_map. apply map_ext. intros k. apply sampled_tail. }
    rewrite T. cbn [seq map]. rewrite <- app_assoc.
    repeat split; try lia.
    destruct (pin_in m); [destruct n|]; reflexivity.
Qed.

Lemma accumulate_eight (b0 b1 b2 b3 b4 b5 b6 b7 : bool) :
  let bits := map Z.b2z [b0; b1; b2; b3; b4; b5; b6; b7] in
  accumulate bits 0 = Z.shiftr (lsb_first bits) 1 /\
  accumulate bits 0 = lsb_first (tl bits) /\
  0 <= accumulate bits 0 < 128 /\
  Z.testbit (accumulate bits 0) 7 = false /\
  Z.testbit (accumulate bits 0) 6 = b7 /\
  Z.testbit (accumulate bits 0) 0 = b1.
Proof.
  destruct b0, b1, b2, b3, b4, b5, b6, b7; vm_compute; intuition congruence.
Qed.

(** C10. With the compare-match interrupt enabled, onewire0_readbyte
    returns after eight read slots a byte below 0x80: it is the byte of the
    eight sampled bits, least-significant first, shifted right once more,
    that is the byte of the second to eighth sampled bits; bit 7 is clear,
    the eighth sampled bit is bit 6, and the first sampled bit is in no
    bit of the result. *)
Theorem readbyte_msb_clear : forall fuel m,
  irq_enabled m = true -> (3 <= fuel)%nat ->
  exists r m',
    onewire0_readbyte fuel m = Some (r, m') /\
    sampled_bits (history m') =
      sampled_bits (history m) ++ map (sampled (pin_in m)) (seq 0 8) /\
    read_slot_count (history m') = (read_slot_count (history m) + 8)%nat /\
    r = Z.shiftr (lsb_first (map (sampled (pin_in m)) (seq 0 8))) 1 /\
    r = lsb_first (map (sampled (pin_in m)) (seq 1 7)) /\
    0 <= r < 128 /\
    Z.testbit r 7 = false /\
    Z.testbit r 6 = negb (sampled (pin_in m) 7 =? 0).
Proof.
  intros fuel m E F.
  exists (fst (read_slots 8 0 (_starttimer m))), (snd (read_slots 8 0 (_starttimer m))).
  rewrite <- surjective_pairing.
  split; [apply readbyte_run; assumption|].
  destruct (read_slots_result 8 0 (_starttimer m)) as (R & S & C & _).
  rewrite R, S, C.
  change (pin_in (_starttimer m)) with (pin_in m).
  rewrite starttimer_history, sampled_bits_app, read_slot_count_app.
  cbn [sampled_bits read_slot_count]. rewrite app_nil_r, Nat.add_0_r.
  split; [reflexivity|]. split; [reflexivity|].
  cbn [seq map]. rewrite !sampled_bool.
  match goal with
  | |- context [accumulate [Z.b2z ?b0; Z.b2z ?b1; Z.b2z ?b2; Z.b2z ?b3;
                            Z.b2z ?b4; Z.b2z ?b5; Z.b2z ?b6; Z.b2z ?b7] 0] =>
      destruct (accumulate_eight b0 b1 b2 b3 b4 b5 b6 b7) as (A1 & A2 & A3 & A4 & A5 & _)
  end.
  cbn [map tl] in A1, A2, A3, A4, A5.
  split; [exact A1|]. split; [exact A2|]. split; [exact A3|]. split; [exact A4|].
  rewrite A5.
  match goal with |- ?b = negb (Z.b2z ?b =? 0) => destruct b; reflexivity end.
Qed.

(** ** Evaluation on concrete machines *)

(** C2. onewire0_readbyte on a booted device whose pin shows 1 in the first
    slot and 0 in the seven after it: eight read slots run, the bits
    sampled are 1,0,0,0,0,0,0,0, each is or-ed in at 0x80 and the
    accumulator shifted after it, and the byte returned is 0, not 1: the
    first bit received is not the least-significant bit of the result.
    With 1 in every slot the byte returned is 0x7F, not 0xFF. *)
Theorem readbyte_first_bit_not_lsb :
  option_map fst (onewire0_readbyte 3 (booted [1; 0; 0; 0; 0; 0; 0; 0])) = Some 0 /\
  option_map (fun rm => sampled_bits (history (snd rm)))
    (onewire0_readbyte 3 (booted [1; 0; 0; 0; 0; 0; 0; 0]))
    = Some [1; 0; 0; 0; 0; 0; 0; 0] /\
  option_map (fun rm => read_slot_count (history (snd rm)))
    (onewire0_readbyte 3 (booted [1; 0; 0; 0; 0; 0; 0; 0])) = Some 8%nat /\
  lsb_first [1; 0; 0; 0; 0; 0; 0; 0] = 1 /\
  option_map fst (onewire0_readbyte 3 (booted [1; 1; 1; 1; 1; 1; 1; 1])) = Some 127.
Proof. repeat split. Qed.

(** C1. write_byte(1) then read_byte() against the loopback peer returns 0,
    and write_byte(0xA5) then read_byte() returns 0x52: the round trip is
    not the identity. *)
Theorem loopback_not_identity :
  loopback 3 1 = Some 0 /\ loopback 3 165 = Some 82 /\ loopback 3 255 = Some 127.
Proof. repeat split. Qed.

Lemma loopback_fuel fuel v : (3 <= fuel)%nat -> loopback fuel v = loopback 3 v.
Proof.
  intros F. unfold loopback.
  rewrite (writebyte_run fuel), (writebyte_run 3)
    by (try apply irq_enabled_init; lia).
  rewrite (readbyte_run fuel), (readbyte_run 3)
    by (try apply irq_enabled_init; lia).
  reflexivity.
Qed.

Lemma byte_cases (P : Z -> bool) :
  forallb P (map Z.of_nat (seq 0 256)) = true ->
  forall v, 0 <= v < 256 -> P v = true.
Proof.
  intros H v B. rewrite forallb_forall in H. apply H.
  rewrite <- (Z2Nat.id v) by lia. apply in_map, in_seq. lia.
Qed.

(** Over the loopback every byte comes back shifted right by one. *)
Lemma loopback_halves fuel v :
  (3 <= fuel)%nat -> 0 <= v < 256 -> loopback fuel v = Some (Z.shiftr v 1).
Proof.
  intros F B. rewrite loopback_fuel by exact F.
  pose proof (byte_cases
    (fun v => match loopback 3 v with
              | Some r => r =? Z.shiftr v 1
              | None => false
              end)) as H.
  specialize (H ltac:(vm_compute; reflexivity) v B). cbv beta in H.
  destruct (loopback 3 v) as [r|]; [|discriminate H].
  apply Z.eqb_eq in H. rewrite H. reflexivity.
Qed.

(** ** The theorems at concrete inputs *)

Lemma writebyte_lsb_first_witness :
  (0 <= 165 < 256 /\ irq_enabled (booted []) = true /\ (2 <= 2)%nat) /\
  exists m',
    onewire0_writebyte 2 165 (booted []) = Some m' /\
    written_bits (history m') = [1; 0; 1; 0; 0; 1; 0; 1].
Proof.
  split; [split; [lia | split; [reflexivity | lia]]|].
  destruct (writebyte_lsb_first 2 165 (booted []) ltac:(lia) eq_refl (le_n 2))
    as [(m' & R & W & _) _].
  exists m'. split; [exact R | exact W].
Defined.

Lemma writebit_slot_witness :
  irq_armed (_starttimer (booted [])) = true /\
  exists m',
    _writebit 2 1 (_starttimer (booted [])) = Some m' /\
    ow_state m' = OW0_IDLE /\ driving m' = false.
Proof.
  split; [reflexivity|].
  destruct (writebit_slot 2 1 (_starttimer (booted [])) eq_refl) as [_ H].
  destruct (H (le_n 2)) as (m' & R & _ & _ & S & D).
  exists m'. split; [exact R | split; [exact S | exact D]].
Defined.

Lemma readbit_slot_witness :
  irq_armed (_starttimer (booted [1])) = true /\
  exists m',
    _readbit 3 (_starttimer (booted [1])) = Some (1, m') /\
    ow_bit m' = 1 /\ ow_state m' = OW0_IDLE.
Proof.
  split; [reflexivity|].
  destruct (readbit_slot 3 (_starttimer (booted [1])) eq_refl) as [_ H].
  destruct (H (le_n 3)) as (m' & R & _ & B & _ & S & _).
  exists m'. split; [exact R | split; [exact B | exact S]].
Defined.

Lemma gap_constants_programmed_witness :
  (irq_armed (_starttimer (booted [])) = true /\ (3 <= 3)%nat /\ 1 <> 0) /\
  exists m1,
    _writebit 3 1 (_starttimer (booted [])) = Some m1 /\
    pulses (history m1) = [(true, 6); (false, 64)].
Proof.
  split; [split; [reflexivity | split; [lia | discriminate]]|].
  destruct (gap_constants_programmed 3 1 (_starttimer (booted []))
              eq_refl (le_n 3) ltac:(discriminate))
    as (_ & (m1 & R & P) & _).
  exists m1. split; [exact R | exact P].
Defined.

Lemma idle_before_and_after_witness :
  (ow_state (booted []) = OW0_IDLE /\
   irq_enabled (booted []) = true /\ (3 <= 3)%nat) /\
  (exists m',
     onewire0_writebyte 3 165 (booted []) = Some m' /\ ow_state m' = OW0_IDLE) /\
  (exists r m',
     onewire0_readbyte 3 (booted []) = Some (r, m') /\ ow_state m' = OW0_IDLE).
Proof.
  split; [split; [reflexivity | split; [reflexivity | lia]]|].
  destruct (idle_before_and_after 3 1 165 (booted []) eq_refl eq_refl (le_n 3))
    as (W & R & _).
  split; [exact W | exact R].
Defined.

Lemma readbyte_msb_clear_witness :
  (irq_enabled (booted [1; 1; 1; 1; 1; 1; 1; 1]) = true /\ (3 <= 3)%nat) /\
  exists r m',
    onewire0_readbyte 3 (booted [1; 1; 1; 1; 1; 1; 1; 1]) = Some (r, m') /\
    r = 127.
Proof.
  split; [split; [reflexivity | lia]|].
  destruct (readbyte_msb_clear 3 (booted [1; 1; 1; 1; 1; 1; 1; 1]) eq_refl (le_n 3))
    as (r & m' & R & _ & _ & _ & V & _).
  exists r, m'. split; [exact R | exact V].
Defined.

(** * Further properties of the driver *)

(** ** Bits of a register around a one-bit update *)

Lemma one_bit n k : 0 <= n -> Z.testbit (Z.shiftl 1 n) k = (n =? k).
Proof. intros H. rewrite Z.shiftl_1_l. apply Z.pow2_bits_eqb. exact H. Qed.

Lemma cleared_bits d n k :
  0 <= n -> 0 <= k < 8 ->
  Z.testbit (wrap8 (Z.land d (Z.lnot (Z.shiftl 1 n)))) k =
  Z.testbit d k && negb (n =? k).
Proof.
  intros N K. rewrite wrap8_testbit by exact K.
  rewrite Z.land_spec, Z.lnot_spec, one_bit by lia. reflexivity.
Qed.

Lemma set_bits d n k :
  0 <= n -> 0 <= k < 8 ->
  Z.testbit (wrap8 (Z.lor d (Z.shiftl 1 n))) k = Z.testbit d k || (n =? k).
Proof.
  intros N K. rewrite wrap8_testbit by exact K.
  rewrite Z.lor_spec, one_bit by lia. reflexivity.
Qed.

Lemma pulse_and_release_bits d k :
  0 <= k < 8 ->
  Z.testbit (wrap8 (Z.land (wrap8 (Z.lor d PIN)) (Z.lnot PIN))) k =
  Z.testbit d k && negb (PORTB0 =? k).
Proof.
  intros K. unfold PIN. rewrite cleared_bits, set_bits by (unfold PORTB0; lia).
  destruct (PORTB0 =? k), (Z.testbit d k); reflexivity.
Qed.

Lemma byte_zero z : (forall k, 0 <= k < 8 -> Z.testbit (wrap8 z) k = false) -> wrap8 z = 0.
Proof.
  intros H. apply Z.bits_inj'. intros n N. rewrite Z.bits_0.
  destruct (Z.ltb_spec n 8) as [L|G].
  - apply H. lia.
  - unfold wrap8. change 256 with (2 ^ 8). apply Z.mod_pow2_bits_high. lia.
Qed.

(** ** onewire0_init *)

(** X1. onewire0_init leaves the state Idle, the pin an input with its
    output latch low, timer0 in CTC mode with the prescaler bit of
    PRESCALER cleared, OCR0B at 0xff and the compare-match-A interrupt
    enabled; in DDRB, PORTB, TCCR0A, TCCR0B and TIMSK it changes no other
    bit, and it touches neither TCNT0, OCR0A, TIFR, the sampled bit nor
    the pin input. *)
Theorem init_establishes : forall m,
  let m' := onewire0_init m in
  ow_state m' = OW0_IDLE /\
  driving m' = false /\
  Z.testbit (io m' PORTB) PORTB0 = false /\
  Z.testbit (io m' TCCR0A) WGM01 = true /\
  Z.testbit (io m' TCCR0B) CS01 = false /\
  io m' OCR0B = 255 /\
  irq_enabled m' = true /\
  (forall k, 0 <= k < 8 ->
     (k <> PORTB0 -> Z.testbit (io m' DDRB) k = Z.testbit (io m DDRB) k) /\
     (k <> PORTB0 -> Z.testbit (io m' PORTB) k = Z.testbit (io m PORTB) k) /\
     (k <> WGM01 -> Z.testbit (io m' TCCR0A) k = Z.testbit (io m TCCR0A) k) /\
     (k <> CS01 -> Z.testbit (io m' TCCR0B) k = Z.testbit (io m TCCR0B) k) /\
     (k <> OCIE0A -> Z.testbit (io m' TIMSK) k = Z.testbit (io m TIMSK) k)) /\
  io m' TCNT0 = io m TCNT0 /\ io m' OCR0A = io m OCR0A /\ io m' TIFR = io m TIFR /\
  ow_bit m' = ow_bit m /\ pin_in m' = pin_in m.
Proof.
  intros m m'. subst m'. unfold onewire0_init, driving, irq_enabled.
  cbn [store set_state io reg_eqb ow_state ow_bit pin_in].
  unfold PIN, PRESCALER.
  split; [reflexivity|].
  split; [rewrite cleared_bits by (unfold PORTB0; lia); apply andb_false_r|].
  split; [rewrite cleared_bits by (unfold PORTB0; lia); apply andb_false_r|].
  split; [rewrite set_bits by (unfold WGM01; lia); apply orb_true_r|].
  split; [rewrite cleared_bits by (unfold CS01; lia); apply andb_false_r|].
  split; [reflexivity|].
  split; [rewrite set_bits by (unfold OCIE0A; lia); apply orb_true_r|].
  split; [|repeat split].
  intros k K.
  rewrite !cleared_bits, !set_bits by (unfold PORTB0, WGM01, CS01, OCIE0A; lia).
  repeat split; intros N;
    match goal with
    | |- context [?n =? k] =>
        destruct (Z.eqb_spec n k) as [Q|Q]; [exfalso; apply N; symmetry; exact Q|]
    end;
    rewrite ?andb_true_r, ?orb_false_r; reflexivity.
Qed.

(** ** Who starts the timer *)

Lemma unarmed_writebit fuel value m :
  irq_armed m = false -> _writebit fuel value m = None.
Proof.
  intros A. unfold _writebit. apply busy_wait_unarmed.
  - rewrite irq_armed_writebit_arm. exact A.
  - unfold _writebit_arm. destruct (negb (value =? 0)); reflexivity.
Qed.

Lemma unarmed_readbit fuel m : irq_armed m = false -> _readbit fuel m = None.
Proof.
  intros A. unfold _readbit.
  rewrite busy_wait_unarmed; [reflexivity | exact A | reflexivity].
Qed.

Lemma disabled_stays_unarmed m : irq_enabled m = false -> irq_armed (_starttimer m) = false.
Proof.
  intros E. unfold irq_armed. rewrite irq_enabled_starttimer, E.
  apply andb_false_r.
Qed.

(** X2. On a device whose compare-match-A interrupt is not enabled (one
    onewire0_init has not been run on), onewire0_writebyte and
    onewire0_readbyte never return, whatever the fuel: nothing moves the
    state of the first slot back to Idle. *)
Theorem byte_routines_need_init : forall fuel byte m,
  irq_enabled m = false ->
  onewire0_writebyte fuel byte m = None /\ onewire0_readbyte fuel m = None.
Proof.
  intros fuel byte m E. apply disabled_stays_unarmed in E.
  unfold onewire0_writebyte, onewire0_readbyte. cbn [writebyte_loop readbyte_loop].
  rewrite unarmed_writebit, unarmed_readbit by exact E. split; reflexivity.
Qed.

Lemma byte_routines_need_init_witness :
  irq_enabled (reset_machine []) = false /\
  onewire0_writebyte 1000 165 (reset_machine []) = None /\
  onewire0_readbyte 1000 (reset_machine []) = None.
Proof.
  split; [reflexivity|].
  exact (byte_routines_need_init 1000 165 (reset_machine []) eq_refl).
Defined.

Lemma clock_select_clear x :
  Z.testbit x CS00 = false -> Z.testbit x CS02 = false ->
  Z.land (wrap8 (Z.land x (Z.lnot PRESCALER)))
    (Z.lor (Z.shiftl 1 CS02) (Z.lor (Z.shiftl 1 CS01) (Z.shiftl 1 CS00))) = 0.
Proof.
  intros H0 H2. apply Z.bits_inj'. intros n N.
  rewrite Z.bits_0, Z.land_spec, !Z.lor_spec, !one_bit by (unfold CS00, CS01, CS02; lia).
  destruct (Z.ltb_spec n 8) as [L|G].
  - unfold PRESCALER. rewrite cleared_bits by (unfold CS01; lia).
    destruct (Z.eqb_spec CS02 n) as [E2|_], (Z.eqb_spec CS01 n) as [E1|_],
             (Z.eqb_spec CS00 n) as [E0|_];
      try (exfalso; unfold CS00, CS01, CS02 in *; lia);
      try rewrite <- E2; try rewrite <- E0;
      cbn [negb orb]; rewrite ?H0, ?H2, ?andb_false_r; reflexivity.
  - replace (CS02 =? n) with false by (symmetry; apply Z.eqb_neq; unfold CS02; lia).
    replace (CS01 =? n) with false by (symmetry; apply Z.eqb_neq; unfold CS01; lia).
    replace (CS00 =? n) with false by (symmetry; apply Z.eqb_neq; unfold CS00; lia).
    apply andb_false_r.
Qed.

(** X3. onewire0_init leaves timer0 stopped when no other clock-select bit
    was set: right after it the bit primitives _writebit and _readbit would
    never return, while onewire0_writebyte and onewire0_readbyte, which
    call _starttimer first, do. *)
Theorem init_leaves_timer_stopped : forall fuel value byte m,
  Z.testbit (io m TCCR0B) CS00 = false ->
  Z.testbit (io m TCCR0B) CS02 = false ->
  (3 <= fuel)%nat ->
  timer_running (onewire0_init m) = false /\
  _writebit fuel value (onewire0_init m) = None /\
  _readbit fuel (onewire0_init m) = None /\
  (exists m', onewire0_writebyte fuel byte (onewire0_init m) = Some m') /\
  (exists r m', onewire0_readbyte fuel (onewire0_init m) = Some (r, m')).
Proof.
  intros fuel value byte m H0 H2 F.
  assert (T : timer_running (onewire0_init m) = false).
  { unfold timer_running, onewire0_init. cbn [store set_state io reg_eqb].
    rewrite clock_select_clear by assumption. reflexivity. }
  assert (A : irq_armed (onewire0_init m) = false).
  { unfold irq_armed. rewrite T. reflexivity. }
  split; [exact T|].
  split; [apply unarmed_writebit; exact A|].
  split; [apply unarmed_readbit; exact A|].
  split.
  - eexists. apply writebyte_run; [apply irq_enabled_init | lia].
  - exists (fst (read_slots 8 0 (_starttimer (onewire0_init m)))),
           (snd (read_slots 8 0 (_starttimer (onewire0_init m)))).
    rewrite <- surjective_pairing.
    apply readbyte_run; [apply irq_enabled_init | exact F].
Qed.

Lemma init_leaves_timer_stopped_witness :
  (Z.testbit (io (reset_machine []) TCCR0B) CS00 = false /\
   Z.testbit (io (reset_machine []) TCCR0B) CS02 = false /\ (3 <= 3)%nat) /\
  _writebit 3 1 (booted []) = None /\ _readbit 3 (booted []) = None.
Proof.
  split; [split; [reflexivity | split; [reflexivity | lia]]|].
  destruct (init_leaves_timer_stopped 3 1 165 (reset_machine [])
              eq_refl eq_refl (le_n 3)) as (_ & W & R & _).
  split; [exact W | exact R].
Defined.

(** X4. _starttimer sets the counter to 0 and the prescaler bit of
    TCCR0B, so that timer0 runs; it changes no other bit of TCCR0B below
    bit 8 and no register besides TIFR, TCNT0 and TCCR0B, and leaves the
    state, the sampled bit, the pin direction and the pin input alone. *)
Theorem starttimer_starts : forall m,
  let m' := _starttimer m in
  timer_running m' = true /\
  io m' TCNT0 = 0 /\
  Z.testbit (io m' TCCR0B) CS01 = true /\
  (forall k, 0 <= k < 8 -> k <> CS01 ->
     Z.testbit (io m' TCCR0B) k = Z.testbit (io m TCCR0B) k) /\
  (io m' DDRB = io m DDRB /\ io m' PORTB = io m PORTB /\
   io m' OCR0A = io m OCR0A /\ io m' OCR0B = io m OCR0B /\
   io m' TCCR0A = io m TCCR0A /\ io m' TIMSK = io m TIMSK) /\
  ow_state m' = ow_state m /\ ow_bit m' = ow_bit m /\ pin_in m' = pin_in m.
Proof.
  intros m m'. subst m'. unfold timer_running, _starttimer.
  cbn [store io reg_eqb ow_state ow_bit pin_in].
  split; [apply prescaler_set_runs|]. split; [reflexivity|].
  unfold PRESCALER.
  split; [rewrite set_bits by (unfold CS01; lia); apply orb_true_r|].
  split; [|repeat split].
  intros k K N. rewrite set_bits by (unfold CS01; lia).
  destruct (Z.eqb_spec CS01 k) as [Q|Q]; [exfalso; apply N; symmetry; exact Q|].
  apply orb_false_r.
Qed.

(** X5. After _starttimer no interrupt flag of TIFR is pending: the
    read-modify-write [TIFR |= 1<<OCF0A] writes a one to OCF0A and to every
    flag that was set, and a flag is cleared by writing a one to it. *)
Theorem starttimer_clears_pending : forall m,
  io (_starttimer m) TIFR = 0 /\ Z.testbit (io (_starttimer m) TIFR) OCF0A = false.
Proof.
  intros m.
  assert (Z : io (_starttimer m) TIFR = 0).
  { unfold _starttimer. cbn [store io reg_eqb].
    apply byte_zero. intros k K.
    rewrite wrap8_testbit, Z.land_spec, Z.lnot_spec by lia.
    rewrite wrap8_testbit, Z.lor_spec by exact K.
    destruct (Z.testbit (io m TIFR) k); reflexivity. }
  split; [exact Z|]. rewrite Z. reflexivity.
Qed.

(** ** The pin trace of the byte routines *)

Lemma write_pulses_low byte :
  write_pulses (Z.land byte 1) = write_pulses (Z.b2z (Z.testbit byte 0)).
Proof.
  rewrite <- low_bit. unfold write_pulses.
  destruct (Z.land byte 1 =? 0); reflexivity.
Qed.

Lemma bits_of_shift byte n :
  0 <= byte < 256 ->
  map (fun k => Z.b2z (Z.testbit (wrap8 (Z.shiftr byte 1)) (Z.of_nat k))) (seq 0 n) =
  map (fun k => Z.b2z (Z.testbit byte (Z.of_nat k))) (seq 1 n).
Proof.
  intros B. destruct (shifted_byte byte B) as [W _].
  rewrite <- seq_shift, map_map. apply map_ext. intros k.
  rewrite W, Z.shiftr_spec by lia. do 2 f_equal. lia.
Qed.

Lemma write_slots_pulses : forall n byte m,
  0 <= byte < 256 ->
  pulses (history (write_slots n byte m)) =
  pulses (history m) ++
  flat_map write_pulses
    (map (fun k => Z.b2z (Z.testbit byte (Z.of_nat k))) (seq 0 n)).
Proof.
  induction n as [|n IH]; intros byte m B; simpl write_slots.
  - simpl. rewrite app_nil_r. reflexivity.
  - destruct (shifted_byte byte B) as [W R].
    rewrite IH by (rewrite W; exact R).
    rewrite bits_of_shift by exact B.
    rewrite write_slot_pulses. fold (write_pulses (Z.land byte 1)).
    rewrite write_pulses_low, <- app_assoc. reflexivity.
Qed.

Lemma starttimer_pulses m : pulses (history (_starttimer m)) = pulses (history m).
Proof. rewrite starttimer_history, pulses_app. apply app_nil_r. Qed.

Lemma read_slots_pulses : forall n byte m,
  pulses (history (snd (read_slots n byte m))) =
  pulses (history m) ++ concat (repeat read_pulses n).
Proof.
  induction n as [|n IH]; intros byte m; cbn [read_slots].
  - simpl. rewrite app_nil_r. reflexivity.
  - rewrite IH, read_slot_pulses, <- app_assoc. reflexivity.
Qed.

Lemma ticks_app p q : ticks (p ++ q) = ticks p + ticks q.
Proof.
  unfold ticks. induction p as [|x p IH]; simpl; [reflexivity|].
  rewrite IH. lia.
Qed.

Lemma ticks_write_slots bits :
  ticks (flat_map write_pulses bits) = 70 * Z.of_nat (length bits).
Proof.
  induction bits as [|b bits IH]; [reflexivity|].
  cbn [flat_map length]. rewrite ticks_app, IH, Nat2Z.inj_succ.
  assert (T : ticks (write_pulses b) = 70)
    by (unfold write_pulses; destruct (b =? 0); reflexivity).
  rewrite T. lia.
Qed.

Lemma ticks_read_slots n :
  ticks (concat (repeat read_pulses n)) = 70 * Z.of_nat n.
Proof.
  induction n as [|n IH]; [reflexivity|].
  cbn [repeat concat]. rewrite ticks_app, IH, Nat2Z.inj_succ.
  change (ticks read_pulses) with 70. lia.
Qed.

(** X6. The pin trace of onewire0_writebyte: for each bit of the byte,
    least-significant first, a period with the pin driven and one with it
    released, of compare values 6 and 64 for a one and 60 and 10 for a
    zero; no other timer period elapses during the call. *)
Theorem writebyte_pin_trace : forall fuel byte m,
  0 <= byte < 256 -> irq_enabled m = true -> (2 <= fuel)%nat ->
  exists m',
    onewire0_writebyte fuel byte m = Some m' /\
    pulses (history m') =
      pulses (history m) ++
      flat_map (fun b => if b =? 0 then [(true, 60); (false, 10)]
                         else [(true, 6); (false, 64)])
        (bits_of byte).
Proof.
  intros fuel byte m B E F.
  exists (write_slots 8 byte (_starttimer m)).
  split; [apply writebyte_run; assumption|].
  rewrite write_slots_pulses, starttimer_pulses by exact B. reflexivity.
Qed.

Lemma writebyte_pin_trace_witness :
  (0 <= 165 < 256 /\ irq_enabled (booted []) = true /\ (2 <= 2)%nat) /\
  exists m',
    onewire0_writebyte 2 165 (booted []) = Some m' /\
    pulses (history m') =
      [(true, 6); (false, 64); (true, 60); (false, 10);
       (true, 6); (false, 64); (true, 60); (false, 10);
       (true, 60); (false, 10); (true, 6); (false, 64);
       (true, 60); (false, 10); (true, 6); (false, 64)].
Proof.
  split; [split; [lia | split; [reflexivity | lia]]|].
  destruct (writebyte_pin_trace 2 165 (booted []) ltac:(lia) eq_refl (le_n 2))
    as (m' & R & P).
  exists m'. split; [exact R | exact P].
Defined.

(** X7. Whatever the data, the compare values of the periods that elapse
    during onewire0_writebyte add up to 560, eight slots of 70, and so do
    those of onewire0_readbyte. *)
Theorem byte_takes_eight_slots_of_70 : forall fuel byte m,
  0 <= byte < 256 -> irq_enabled m = true -> (3 <= fuel)%nat ->
  (exists mw ps,
     onewire0_writebyte fuel byte m = Some mw /\
     pulses (history mw) = pulses (history m) ++ ps /\
     length ps = 16%nat /\ ticks ps = 560) /\
  (exists r mr ps,
     onewire0_readbyte fuel m = Some (r, mr) /\
     pulses (history mr) = pulses (history m) ++ ps /\
     length ps = 24%nat /\ ticks ps = 560).
Proof.
  intros fuel byte m B E F. split.
  - exists (write_slots 8 byte (_starttimer m)),
      (flat_map write_pulses (bits_of byte)).
    split; [apply writebyte_run; [assumption|lia]|].
    split; [rewrite write_slots_pulses, starttimer_pulses by exact B; reflexivity|].
    split; [|rewrite ticks_write_slots; reflexivity].
    unfold bits_of. cbn [seq map flat_map]. unfold write_pulses.
    repeat match goal with |- context [if ?c then _ else _] => destruct c end;
      reflexivity.
  - exists (fst (read_slots 8 0 (_starttimer m))),
      (snd (read_slots 8 0 (_starttimer m))), (concat (repeat read_pulses 8)).
    rewrite <- surjective_pairing.
    split; [apply readbyte_run; assumption|].
    split; [rewrite read_slots_pulses, starttimer_pulses; reflexivity|].
    split; reflexivity.
Qed.

Lemma byte_takes_eight_slots_of_70_witness :
  (0 <= 165 < 256 /\ irq_enabled (booted []) = true /\ (3 <= 3)%nat) /\
  exists mw ps,
    onewire0_writebyte 3 165 (booted []) = Some mw /\
    pulses (history mw) = ps /\ ticks ps = 560.
Proof.
  split; [split; [lia | split; [reflexivity | lia]]|].
  destruct (byte_takes_eight_slots_of_70 3 165 (booted [])
              ltac:(lia) eq_refl (le_n 3)) as ((mw & ps & R & P & _ & T) & _).
  exists mw, ps. split; [exact R | split; [exact P | exact T]].
Defined.

(** ** What the byte routines read and what they leave alone *)

Lemma pinb_loads_app h1 h2 : pinb_loads (h1 ++ h2) = pinb_loads h1 ++ pinb_loads h2.
Proof.
  induction h1 as [|e h1 IH]; [reflexivity|].
  destruct e; simpl; rewrite IH; reflexivity.
Qed.

Lemma ddrb_stores_app h1 h2 : ddrb_stores (h1 ++ h2) = ddrb_stores h1 ++ ddrb_stores h2.
Proof.
  induction h1 as [|e h1 IH]; [reflexivity|].
  destruct e as [r v|v|s|b|low t]; try destruct r; simpl; rewrite IH; reflexivity.
Qed.

Lemma reading_head m : next_PINB m = nth 0 (map wrap8 (pin_in m)) PIN.
Proof. unfold next_PINB. destruct (pin_in m); reflexivity. Qed.

Lemma reading_tail pins k :
  nth k (map wrap8 (tl pins)) PIN = nth (S k) (map wrap8 pins) PIN.
Proof. destruct pins as [|v pins]; [destruct k|]; reflexivity. Qed.

Lemma read_slots_loads : forall n byte m,
  pinb_loads (history (snd (read_slots n byte m))) =
  pinb_loads (history m) ++
  map (fun k => nth k (map wrap8 (pin_in m)) PIN) (seq 0 n).
Proof.
  induction n as [|n IH]; intros byte m; cbn [read_slots].
  - simpl. rewrite app_nil_r. reflexivity.
  - rewrite IH, read_slot_history, pinb_loads_app, read_slot_pin_in.
    cbn [pinb_loads]. rewrite <- app_assoc, reading_head. cbn [app seq map].
    do 2 f_equal. rewrite <- seq_shift, map_map. apply map_ext. intros k.
    apply reading_tail.
Qed.

(** X8. onewire0_readbyte loads PINB exactly eight times, once per slot,
    taking the next eight readings of the pin in order (a missing reading
    is the idle-high line) and leaving the rest; each slot is a period of
    compare value 6 with the pin driven, then 9 and 55 with it released. *)
Theorem readbyte_pin_trace : forall fuel m,
  irq_enabled m = true -> (3 <= fuel)%nat ->
  exists r m',
    onewire0_readbyte fuel m = Some (r, m') /\
    pinb_loads (history m') =
      pinb_loads (history m) ++
      map (fun k => nth k (map wrap8 (pin_in m)) PIN) (seq 0 8) /\
    pin_in m' = skipn 8 (pin_in m) /\
    pulses (history m') =
      pulses (history m) ++
      concat (repeat [(true, 6); (false, 9); (false, 55)] 8).
Proof.
  intros fuel m E F.
  exists (fst (read_slots 8 0 (_starttimer m))), (snd (read_slots 8 0 (_starttimer m))).
  rewrite <- surjective_pairing.
  split; [apply readbyte_run; assumption|].
  rewrite read_slots_loads, read_slots_pulses, starttimer_pulses.
  destruct (read_slots_result 8 0 (_starttimer m)) as (_ & _ & _ & P).
  rewrite P, starttimer_history, pinb_loads_app.
  cbn [pinb_loads]. rewrite app_nil_r.
  repeat split.
Qed.

Lemma readbyte_pin_trace_witness :
  (irq_enabled (booted [1; 0; 1; 1; 0; 0; 1; 0; 1; 1]) = true /\ (3 <= 3)%nat) /\
  exists r m',
    onewire0_readbyte 3 (booted [1; 0; 1; 1; 0; 0; 1; 0; 1; 1]) = Some (r, m') /\
    pinb_loads (history m') = [1; 0; 1; 1; 0; 0; 1; 0] /\
    pin_in m' = [1; 1].
Proof.
  split; [split; [reflexivity | lia]|].
  destruct (readbyte_pin_trace 3 (booted [1; 0; 1; 1; 0; 0; 1; 0; 1; 1])
              eq_refl (le_n 3)) as (r & m' & R & L & P & _).
  exists r, m'. split; [exact R | split; [exact L | exact P]].
Defined.

Lemma write_slots_reads_nothing : forall n byte m,
  pin_in (write_slots n byte m) = pin_in m /\
  ow_bit (write_slots n byte m) = ow_bit m /\
  pinb_loads (history (write_slots n byte m)) = pinb_loads (history m) /\
  sampled_bits (history (write_slots n byte m)) = sampled_bits (history m) /\
  read_slot_count (history (write_slots n byte m)) = read_slot_count (history m).
Proof.
  induction n as [|n IH]; intros byte m; simpl write_slots; [repeat split|].
  destruct (IH (wrap8 (Z.shiftr byte 1)) (write_slot (Z.land byte 1) m))
    as (P & B & L & S & C).
  destruct (write_slot_frame (Z.land byte 1) m) as [P1 B1].
  rewrite P, B, L, S, C, P1, B1, write_slot_history,
    pinb_loads_app, sampled_bits_app, read_slot_count_app.
  destruct (Z.land byte 1 =? 0); cbn; rewrite ?app_nil_r, ?Nat.add_0_r;
    repeat split.
Qed.

(** X9. onewire0_writebyte never samples the bus: it loads PINB not once,
    starts no read slot, and leaves onewire0.bit and the readings still to
    come from the pin as they were. *)
Theorem writebyte_reads_nothing : forall fuel byte m,
  irq_enabled m = true -> (2 <= fuel)%nat ->
  exists m',
    onewire0_writebyte fuel byte m = Some m' /\
    pinb_loads (history m') = pinb_loads (history m) /\
    sampled_bits (history m') = sampled_bits (history m) /\
    read_slot_count (history m') = read_slot_count (history m) /\
    ow_bit m' = ow_bit m /\ pin_in m' = pin_in m.
Proof.
  intros fuel byte m E F.
  exists (write_slots 8 byte (_starttimer m)).
  split; [apply writebyte_run; assumption|].
  destruct (write_slots_reads_nothing 8 byte (_starttimer m)) as (P & B & L & S & C).
  rewrite P, B, L, S, C, starttimer_history,
    pinb_loads_app, sampled_bits_app, read_slot_count_app.
  cbn. rewrite !app_nil_r, Nat.add_0_r. repeat split.
Qed.

Lemma writebyte_reads_nothing_witness :
  (irq_enabled (booted [7; 7]) = true /\ (2 <= 2)%nat) /\
  exists m',
    onewire0_writebyte 2 255 (booted [7; 7]) = Some m' /\
    pinb_loads (history m') = [] /\ pin_in m' = [7; 7].
Proof.
  split; [split; [reflexivity | lia]|].
  destruct (writebyte_reads_nothing 2 255 (booted [7; 7]) eq_refl (le_n 2))
    as (m' & R & L & _ & _ & _ & P).
  exists m'. split; [exact R | split; [exact L | exact P]].
Defined.

(** ** The other pins of port B *)

Lemma same_other_pins_refl d : same_other_pins d d.
Proof. intros k _ _. reflexivity. Qed.

Lemma same_other_pins_trans d1 d2 d3 :
  same_other_pins d1 d2 -> same_other_pins d2 d3 -> same_other_pins d1 d3.
Proof. intros H12 H23 k K N. rewrite H23, H12 by assumption. reflexivity. Qed.

Lemma pulled_other_pins d : same_other_pins d (wrap8 (Z.lor d PIN)).
Proof.
  intros k K N. unfold PIN. rewrite set_bits by (unfold PORTB0; lia).
  destruct (Z.eqb_spec PORTB0 k) as [Q|Q]; [exfalso; apply N; symmetry; exact Q|].
  apply orb_false_r.
Qed.

Lemma released_other_pins d :
  same_other_pins d (wrap8 (Z.land (wrap8 (Z.lor d PIN)) (Z.lnot PIN))).
Proof.
  intros k K N. rewrite pulse_and_release_bits by exact K.
  destruct (Z.eqb_spec PORTB0 k) as [Q|Q]; [exfalso; apply N; symmetry; exact Q|].
  apply andb_true_r.
Qed.

Lemma keeps_other_pins_refl m : keeps_other_pins m m.
Proof.
  split; [apply same_other_pins_refl|]. repeat (split; [reflexivity|]).
  exists []. split; [symmetry; apply app_nil_r | constructor].
Qed.

Lemma keeps_other_pins_trans m1 m2 m3 :
  keeps_other_pins m1 m2 -> keeps_other_pins m2 m3 -> keeps_other_pins m1 m3.
Proof.
  intros (D12 & P12 & B12 & A12 & T12 & l12 & L12 & F12)
         (D23 & P23 & B23 & A23 & T23 & l23 & L23 & F23).
  split; [exact (same_other_pins_trans _ _ _ D12 D23)|].
  split; [congruence|]. split; [congruence|]. split; [congruence|].
  split; [congruence|].
  exists (l12 ++ l23). split; [rewrite L23, L12, app_assoc; reflexivity|].
  apply Forall_app. split; [exact F12|].
  eapply Forall_impl; [|exact F23].
  intros d. apply same_other_pins_trans. exact D12.
Qed.

Lemma write_slot_pins value m : keeps_other_pins m (write_slot value m).
Proof.
  split; [|split; [|split; [|split; [|split]]]].
  - unfold write_slot, _writebit_arm.
    destruct (negb (value =? 0)); apply released_other_pins.
  - unfold write_slot, _writebit_arm. destruct (negb (value =? 0)); reflexivity.
  - unfold write_slot, _writebit_arm. destruct (negb (value =? 0)); reflexivity.
  - unfold write_slot, _writebit_arm. destruct (negb (value =? 0)); reflexivity.
  - unfold write_slot, _writebit_arm. destruct (negb (value =? 0)); reflexivity.
  - eexists. split.
    + rewrite write_slot_history, ddrb_stores_app. cbn [ddrb_stores]. reflexivity.
    + repeat constructor; [apply pulled_other_pins | apply released_other_pins].
Qed.

Lemma read_slot_pins m : keeps_other_pins m (read_slot m).
Proof.
  split; [apply released_other_pins|]. repeat (split; [reflexivity|]).
  eexists. split.
  - rewrite read_slot_history, ddrb_stores_app. cbn [ddrb_stores]. reflexivity.
  - repeat constructor; [apply pulled_other_pins | apply released_other_pins].
Qed.

Lemma starttimer_pins m : keeps_other_pins m (_starttimer m).
Proof.
  split; [apply same_other_pins_refl|]. repeat (split; [reflexivity|]).
  exists []. split; [|constructor].
  rewrite starttimer_history, ddrb_stores_app. reflexivity.
Qed.

Lemma write_slots_pins : forall n byte m, keeps_other_pins m (write_slots n byte m).
Proof.
  induction n as [|n IH]; intros byte m; simpl write_slots.
  - apply keeps_other_pins_refl.
  - eapply keeps_other_pins_trans; [apply write_slot_pins | apply IH].
Qed.

Lemma read_slots_pins : forall n byte m, keeps_other_pins m (snd (read_slots n byte m)).
Proof.
  induction n as [|n IH]; intros byte m; cbn [read_slots].
  - apply keeps_other_pins_refl.
  - eapply keeps_other_pins_trans; [apply read_slot_pins | apply IH].
Qed.

Lemma write_slots_released : forall n byte m,
  driving m = false -> driving (write_slots n byte m) = false.
Proof.
  induction n as [|n IH]; intros byte m D; simpl write_slots; [exact D|].
  apply IH, write_slot_released.
Qed.

Lemma read_slots_released : forall n byte m,
  driving m = false -> driving (snd (read_slots n byte m)) = false.
Proof.
  induction n as [|n IH]; intros byte m D; cbn [read_slots]; [exact D|].
  apply IH, read_slot_released.
Qed.

Lemma write_slots_end_released n byte m : driving (write_slots (S n) byte m) = false.
Proof. cbn [write_slots]. apply write_slots_released, write_slot_released. Qed.

Lemma read_slots_end_released n byte m :
  driving (snd (read_slots (S n) byte m)) = false.
Proof. cbn [read_slots]. apply read_slots_released, read_slot_released. Qed.

(** X10. onewire0_writebyte and onewire0_readbyte touch no pin of port B
    but their own: every value they store to DDRB, and the one DDRB ends
    with, differs from the DDRB they found at most in bit PORTB0, and
    PORTB, OCR0B, TCCR0A and TIMSK are unchanged; on return the pin is
    not driving, whatever its direction was on entry. *)
Theorem byte_routines_keep_other_pins : forall fuel byte m,
  irq_enabled m = true -> (3 <= fuel)%nat ->
  (exists mw,
     onewire0_writebyte fuel byte m = Some mw /\
     keeps_other_pins m mw /\ driving mw = false) /\
  (exists r mr,
     onewire0_readbyte fuel m = Some (r, mr) /\
     keeps_other_pins m mr /\ driving mr = false).
Proof.
  intros fuel byte m E F. split.
  - exists (write_slots 8 byte (_starttimer m)).
    split; [apply writebyte_run; [assumption|lia]|]. split.
    + eapply keeps_other_pins_trans; [apply starttimer_pins | apply write_slots_pins].
    + apply write_slots_end_released.
  - exists (fst (read_slots 8 0 (_starttimer m))), (snd (read_slots 8 0 (_starttimer m))).
    rewrite <- surjective_pairing.
    split; [apply readbyte_run; assumption|]. split.
    + eapply keeps_other_pins_trans; [apply starttimer_pins | apply read_slots_pins].
    + apply read_slots_end_released.
Qed.

Lemma byte_routines_keep_other_pins_witness :
  (irq_enabled (onewire0_init (store DDRB 0xAB (reset_machine []))) = true /\
   (3 <= 3)%nat) /\
  exists mw,
    onewire0_writebyte 3 165 (onewire0_init (store DDRB 0xAB (reset_machine [])))
      = Some mw /\
    keeps_other_pins (onewire0_init (store DDRB 0xAB (reset_machine []))) mw /\
    driving mw = false.
Proof.
  split; [split; [reflexivity | lia]|].
  destruct (byte_routines_keep_other_pins 3 165
              (onewire0_init (store DDRB 0xAB (reset_machine [])))
              eq_refl (le_n 3)) as (W & _).
  exact W.
Defined.

(** ** The walk of the state machine *)

Lemma ISR_state m : ow_state (ISR m) = next_state (ow_state m).
Proof. unfold ISR. destruct (ow_state m) eqn:E; try reflexivity. exact E. Qed.

Lemma period_state m :
  irq_armed m = true -> ow_state (period m) = next_state (ow_state m).
Proof. intros A. unfold period. rewrite A, ISR_state. reflexivity. Qed.

Lemma irq_armed_period m : irq_armed (period m) = irq_armed m.
Proof.
  unfold period. destruct (irq_armed m) eqn:A; [|exact A].
  rewrite irq_armed_ISR. exact A.
Qed.

Lemma steps_next s :
  is_idle s = false -> steps_to_idle s = S (steps_to_idle (next_state s)).
Proof. destruct s; intros H; reflexivity || discriminate H. Qed.

Lemma steps_zero s : steps_to_idle s = O -> is_idle s = true.
Proof. destruct s; intros H; reflexivity || discriminate H. Qed.

Lemma busy_wait_walk : forall fuel m,
  irq_armed m = true -> (steps_to_idle (ow_state m) <= fuel)%nat ->
  busy_wait fuel m = Some (periods (steps_to_idle (ow_state m)) m).
Proof.
  induction fuel as [|fuel IH]; intros m A F.
  - assert (Z : steps_to_idle (ow_state m) = O) by lia.
    rewrite Z. apply busy_wait_done, steps_zero, Z.
  - destruct (is_idle (ow_state m)) eqn:I.
    + rewrite busy_wait_done by exact I.
      destruct (ow_state m); try discriminate I. reflexivity.
    + cbn [busy_wait]. rewrite I.
      rewrite (steps_next _ I) in F |- *. cbn [periods].
      rewrite <- period_state by exact A.
      apply IH; [rewrite irq_armed_period; exact A|].
      rewrite period_state by exact A. lia.
Qed.

Lemma busy_wait_short : forall fuel m,
  irq_armed m = true -> (fuel < steps_to_idle (ow_state m))%nat ->
  busy_wait fuel m = None.
Proof.
  induction fuel as [|fuel IH]; intros m A F.
  - apply busy_wait_starved. destruct (ow_state m); simpl in F; reflexivity || lia.
  - destruct (is_idle (ow_state m)) eqn:I.
    + destruct (ow_state m); try discriminate I. simpl in F. lia.
    + cbn [busy_wait]. rewrite I.
      apply IH; [rewrite irq_armed_period; exact A|].
      rewrite period_state by exact A. rewrite (steps_next _ I) in F. lia.
Qed.

Lemma periods_state : forall n m,
  irq_armed m = true -> (steps_to_idle (ow_state m) <= n)%nat ->
  ow_state (periods n m) = OW0_IDLE.
Proof.
  induction n as [|n IH]; intros m A F.
  - cbn [periods]. destruct (ow_state m); simpl in F; reflexivity || lia.
  - cbn [periods]. apply IH; [rewrite irq_armed_period; exact A|].
    rewrite period_state by exact A.
    destruct (ow_state m); simpl in *; lia.
Qed.

(** X11. With the interrupt armed the handler brings every state back to
    Idle: from any state the busy-wait returns after exactly as many timer
    periods as the state is away from Idle (at most three), not earlier,
    and then the state is Idle; each run of the handler moves the state
    one step along write-low, write-release, Idle or read-low,
    read-sample, read-release, Idle. *)
Theorem busy_wait_walks_to_idle : forall fuel m,
  irq_armed m = true ->
  ow_state (ISR m) = next_state (ow_state m) /\
  (steps_to_idle (ow_state m) <= 3)%nat /\
  ((fuel < steps_to_idle (ow_state m))%nat -> busy_wait fuel m = None) /\
  ((steps_to_idle (ow_state m) <= fuel)%nat ->
   busy_wait fuel m = Some (periods (steps_to_idle (ow_state m)) m) /\
   ow_state (periods (steps_to_idle (ow_state m)) m) = OW0_IDLE).
Proof.
  intros fuel m A.
  split; [apply ISR_state|].
  split; [destruct (ow_state m); simpl; lia|].
  split; [intros F; apply busy_wait_short; assumption|].
  intros F. split; [apply busy_wait_walk; assumption|].
  apply periods_state; [exact A | apply le_n].
Qed.

Lemma busy_wait_walks_to_idle_witness :
  irq_armed (set_state OW0_READ_SAMPLE (_starttimer (booted [1]))) = true /\
  busy_wait 1 (set_state OW0_READ_SAMPLE (_starttimer (booted [1]))) = None /\
  option_map ow_bit
    (busy_wait 2 (set_state OW0_READ_SAMPLE (_starttimer (booted [1])))) = Some 1.
Proof.
  split; [reflexivity|].
  destruct (busy_wait_walks_to_idle 1
              (set_state OW0_READ_SAMPLE (_starttimer (booted [1]))) eq_refl)
    as (_ & _ & S & _).
  destruct (busy_wait_walks_to_idle 2
              (set_state OW0_READ_SAMPLE (_starttimer (booted [1]))) eq_refl)
    as (_ & _ & _ & L).
  split; [apply S; apply le_n|].
  destruct (L (le_n 2)) as [R _]. rewrite R. reflexivity.
Defined.

(** ** After the call *)

Lemma period_idle m :
  ow_state m = OW0_IDLE -> irq_armed m = true -> period m = compare_match m.
Proof.
  intros I A. unfold period. rewrite A. unfold ISR.
  cbn [compare_match ow_state]. rewrite I. reflexivity.
Qed.

Lemma periods_idle : forall n m,
  ow_state m = OW0_IDLE -> irq_armed m = true ->
  io (periods n m) = io m /\
  ow_state (periods n m) = OW0_IDLE /\
  ow_bit (periods n m) = ow_bit m /\
  pin_in (periods n m) = pin_in m /\
  history (periods n m) = history m ++ repeat (Match (driving m) (io m OCR0A)) n.
Proof.
  induction n as [|n IH]; intros m I A; cbn [periods].
  - cbn [repeat]. rewrite app_nil_r. repeat split. exact I.
  - rewrite period_idle by assumption.
    destruct (IH (compare_match m) I A) as (R & S & B & P & H).
    rewrite R, S, B, P, H. repeat split.
    unfold history. cbn [compare_match log rev repeat driving io].
    rewrite <- app_assoc. reflexivity.
Qed.

Lemma write_slots_S n byte m :
  write_slots (S n) byte m =
  write_slots n (wrap8 (Z.shiftr byte 1)) (write_slot (Z.land byte 1) m).
Proof. reflexivity. Qed.

Lemma read_slots_S n byte m :
  read_slots (S n) byte m =
  read_slots n
    (wrap8 (Z.shiftr (if negb (ow_bit (read_slot m) =? 0)
                      then wrap8 (Z.lor byte 128) else byte) 1))
    (read_slot m).
Proof. reflexivity. Qed.

Lemma write_slots_armed : forall n byte m,
  irq_armed (write_slots n byte m) = irq_armed m.
Proof.
  induction n as [|n IH]; intros byte m; [reflexivity|].
  rewrite write_slots_S, IH. apply irq_armed_write_slot.
Qed.

Lemma read_slots_armed : forall n byte m,
  irq_armed (snd (read_slots n byte m)) = irq_armed m.
Proof.
  induction n as [|n IH]; intros byte m; [reflexivity|].
  rewrite read_slots_S, IH. apply irq_armed_read_slot.
Qed.

Lemma write_slot_compare value m :
  io (write_slot value m) OCR0A = if value =? 0 then GAP_D else GAP_B.
Proof.
  unfold write_slot, _writebit_arm. destruct (value =? 0); reflexivity.
Qed.

Lemma write_slots_compare : forall n byte m,
  io (write_slots (S n) byte m) OCR0A = GAP_B \/
  io (write_slots (S n) byte m) OCR0A = GAP_D.
Proof.
  induction n as [|n IH]; intros byte m; rewrite write_slots_S.
  - cbn [write_slots]. rewrite write_slot_compare.
    destruct (Z.land byte 1 =? 0); auto.
  - apply IH.
Qed.

Lemma read_slot_compare m : io (read_slot m) OCR0A = GAP_F.
Proof. reflexivity. Qed.

Lemma read_slots_compare : forall n byte m,
  io (snd (read_slots (S n) byte m)) OCR0A = GAP_F.
Proof.
  induction n as [|n IH]; intros byte m; rewrite read_slots_S.
  - cbn [read_slots snd]. apply read_slot_compare.
  - apply IH.
Qed.

Lemma write_slots_end_state n byte m : ow_state (write_slots (S n) byte m) = OW0_IDLE.
Proof. rewrite write_slots_S. apply write_slots_state, write_slot_state. Qed.

Lemma read_slots_end_state n byte m :
  ow_state (snd (read_slots (S n) byte m)) = OW0_IDLE.
Proof. rewrite read_slots_S. apply read_slots_state, read_slot_state. Qed.

(** X12. Neither byte routine stops timer0: on return the compare-match
    interrupt is still armed, and as long as no new slot is started every
    further period only runs the handler in Idle, which changes no
    register, not the state, the sampled bit or the pin input; the periods
    go on with the compare value of the last release phase, the pin
    released. *)
Theorem timer_runs_on_after_byte : forall fuel byte n m,
  irq_enabled m = true -> (3 <= fuel)%nat ->
  (exists mw,
     onewire0_writebyte fuel byte m = Some mw /\
     irq_armed mw = true /\
     io (periods n mw) = io mw /\ ow_state (periods n mw) = OW0_IDLE /\
     ow_bit (periods n mw) = ow_bit mw /\ pin_in (periods n mw) = pin_in mw /\
     history (periods n mw) =
       history mw ++ repeat (Match false (io mw OCR0A)) n /\
     (io mw OCR0A = GAP_B \/ io mw OCR0A = GAP_D)) /\
  (exists r mr,
     onewire0_readbyte fuel m = Some (r, mr) /\
     irq_armed mr = true /\
     io (periods n mr) = io mr /\ ow_state (periods n mr) = OW0_IDLE /\
     ow_bit (periods n mr) = ow_bit mr /\ pin_in (periods n mr) = pin_in mr /\
     history (periods n mr) =
       history mr ++ repeat (Match false (io mr OCR0A)) n /\
     io mr OCR0A = GAP_F).
Proof.
  intros fuel byte n m E F.
  pose proof (irq_armed_starttimer m E) as A. split.
  - exists (write_slots 8 byte (_starttimer m)).
    split; [apply writebyte_run; [assumption|lia]|].
    pose proof (write_slots_end_state 7 byte (_starttimer m)) as I.
    pose proof (write_slots_end_released 7 byte (_starttimer m)) as D.
    pose proof (write_slots_armed 8 byte (_starttimer m)) as Am.
    rewrite A in Am.
    destruct (periods_idle n _ I Am) as (R & S & B & P & H).
    rewrite D in H.
    split; [exact Am|]. split; [exact R|]. split; [exact S|]. split; [exact B|].
    split; [exact P|]. split; [exact H|]. apply write_slots_compare.
  - exists (fst (read_slots 8 0 (_starttimer m))), (snd (read_slots 8 0 (_starttimer m))).
    rewrite <- surjective_pairing.
    split; [apply readbyte_run; assumption|].
    pose proof (read_slots_end_state 7 0 (_starttimer m)) as I.
    pose proof (read_slots_end_released 7 0 (_starttimer m)) as D.
    pose proof (read_slots_armed 8 0 (_starttimer m)) as Am.
    rewrite A in Am.
    destruct (periods_idle n _ I Am) as (R & S & B & P & H).
    rewrite D in H.
    split; [exact Am|]. split; [exact R|]. split; [exact S|]. split; [exact B|].
    split; [exact P|]. split; [exact H|]. apply read_slots_compare.
Qed.

Lemma timer_runs_on_after_byte_witness :
  (irq_enabled (booted []) = true /\ (3 <= 3)%nat) /\
  exists mw,
    onewire0_writebyte 3 1 (booted []) = Some mw /\
    irq_armed mw = true /\
    ow_state (periods 5 mw) = OW0_IDLE /\
    history (periods 5 mw) = history mw ++ repeat (Match false (io mw OCR0A)) 5.
Proof.
  split; [split; [reflexivity | lia]|].
  destruct (timer_runs_on_after_byte 3 1 5 (booted []) eq_refl (le_n 3))
    as ((mw & R & A & _ & S & _ & _ & H & _) & _).
  exists mw. split; [exact R | split; [exact A | split; [exact S | exact H]]].
Defined.

(** ** What a read returns *)

Lemma sample_of_bit v : sample_of v = Z.b2z (Z.testbit v PORTB0).
Proof. unfold sample_of. change PIN with 1. apply low_bit. Qed.

Lemma readbyte_value fuel m :
  irq_enabled m = true -> (3 <= fuel)%nat ->
  exists m',
    onewire0_readbyte fuel m =
    Some (lsb_first (map (sampled (pin_in m)) (seq 1 7)), m').
Proof.
  intros E F. exists (snd (read_slots 8 0 (_starttimer m))).
  rewrite readbyte_run by assumption.
  rewrite (surjective_pairing (read_slots 8 0 (_starttimer m))) at 1.
  destruct (read_slots_result 8 0 (_starttimer m)) as (R & _).
  rewrite R. change (pin_in (_starttimer m)) with (pin_in m).
  cbn [seq map]. rewrite !sampled_bool.
  match goal with
  | |- context [accumulate [Z.b2z ?b0; Z.b2z ?b1; Z.b2z ?b2; Z.b2z ?b3;
                            Z.b2z ?b4; Z.b2z ?b5; Z.b2z ?b6; Z.b2z ?b7] 0] =>
      destruct (accumulate_eight b0 b1 b2 b3 b4 b5 b6 b7) as (_ & A & _)
  end.
  cbn [map tl] in A. rewrite A. reflexivity.
Qed.

(** X13. A read looks at the driver's pin only: _readbit returns bit PORTB0
    of the PINB reading taken in its slot, as 0 or 1, whatever the other
    bits of the reading; and the byte of onewire0_readbyte is
    [sum over k = 1..7 of bit PORTB0 of reading k, times 2^(k-1)],
    readings counted from 0. *)
Theorem reads_own_pin_only : forall fuel m,
  irq_armed m = true -> (3 <= fuel)%nat ->
  (exists m',
     _readbit fuel m = Some (Z.b2z (Z.testbit (next_PINB m) PORTB0), m')) /\
  (exists m',
     onewire0_readbyte fuel m =
     Some (lsb_first
             (map (fun k => Z.b2z (Z.testbit (nth k (map wrap8 (pin_in m)) PIN) PORTB0))
                (seq 1 7)), m')).
Proof.
  intros fuel m A F. split.
  - exists (read_slot m). rewrite readbit_run, read_slot_bit by assumption.
    rewrite sample_of_bit. reflexivity.
  - assert (E : irq_enabled m = true).
    { unfold irq_armed in A. apply andb_true_iff in A. apply A. }
    destruct (readbyte_value fuel m E F) as (m' & R).
    exists m'. rewrite R. do 3 f_equal.
    apply map_ext. intros k. unfold sampled. apply sample_of_bit.
Qed.

Lemma reads_own_pin_only_witness :
  (irq_armed (_starttimer (booted [0xFE; 0x03; 0xF0; 0x01; 0; 0; 0; 0xFF])) = true /\
   (3 <= 3)%nat) /\
  (exists m',
     _readbit 3 (_starttimer (booted [0xFE; 0x03; 0xF0; 0x01; 0; 0; 0; 0xFF]))
     = Some (0, m')) /\
  (exists m',
     onewire0_readbyte 3 (_starttimer (booted [0xFE; 0x03; 0xF0; 0x01; 0; 0; 0; 0xFF]))
     = Some (0x45, m')).
Proof.
  split; [split; [reflexivity | lia]|].
  exact (reads_own_pin_only 3
           (_starttimer (booted [0xFE; 0x03; 0xF0; 0x01; 0; 0; 0; 0xFF]))
           eq_refl (le_n 3)).
Defined.

(** ** Round trips *)

(** X14. Over the loopback, for every byte v and enough fuel,
    onewire0_readbyte returns v shifted right by one after
    onewire0_writebyte(v): the round trip gives v back for v = 0 only. *)
Theorem loopback_shifts_right : forall fuel v,
  (3 <= fuel)%nat -> 0 <= v < 256 ->
  loopback fuel v = Some (Z.shiftr v 1) /\
  (loopback fuel v = Some v <-> v = 0).
Proof.
  intros fuel v F B. rewrite loopback_halves by assumption.
  split; [reflexivity|].
  rewrite Z.shiftr_div_pow2 by lia. change (2 ^ 1) with 2.
  split.
  - intros H. injection H as H.
    destruct (Z.eq_dec v 0) as [Z|N]; [exact Z|].
    pose proof (Z.div_lt v 2 ltac:(lia) ltac:(lia)). lia.
  - intros ->. reflexivity.
Qed.

Lemma loopback_shifts_right_witness :
  ((3 <= 3)%nat /\ 0 <= 0xA5 < 256) /\ loopback 3 0xA5 = Some 0x52.
Proof.
  split; [split; lia|].
  exact (proj1 (loopback_shifts_right 3 0xA5 (le_n 3) ltac:(lia))).
Defined.

Lemma lsb_first_bits_of byte : 0 <= byte < 256 -> lsb_first (bits_of byte) = byte.
Proof.
  intros B.
  pose proof (byte_cases (fun v => lsb_first (bits_of v) =? v)
                ltac:(vm_compute; reflexivity) byte B) as H.
  apply Z.eqb_eq in H. exact H.
Qed.

(** X15. The write slots of onewire0_writebyte(byte), read back as a
    number least-significant bit first, are the byte: the eight slots
    started decode to the argument, so two different bytes never give the
    same slots. *)
Theorem written_slots_decode : forall fuel byte m,
  0 <= byte < 256 -> irq_enabled m = true -> (2 <= fuel)%nat ->
  (exists m' l,
     onewire0_writebyte fuel byte m = Some m' /\
     written_bits (history m') = written_bits (history m) ++ l /\
     length l = 8%nat /\
     lsb_first l = byte) /\
  (forall other, 0 <= other < 256 -> bits_of other = bits_of byte -> other = byte).
Proof.
  intros fuel byte m B E F. split.
  - exists (write_slots 8 byte (_starttimer m)), (bits_of byte).
    split; [apply writebyte_run; assumption|].
    split; [|split; [reflexivity | apply lsb_first_bits_of; exact B]].
    rewrite write_slots_bits by exact B.
    rewrite starttimer_history, written_bits_app.
    cbn [written_bits]. rewrite app_nil_r. reflexivity.
  - intros other O H.
    rewrite <- (lsb_first_bits_of other O), <- (lsb_first_bits_of byte B), H.
    reflexivity.
Qed.

Lemma written_slots_decode_witness :
  (0 <= 0x3C < 256 /\ irq_enabled (booted []) = true /\ (2 <= 2)%nat) /\
  exists m' l,
    onewire0_writebyte 2 0x3C (booted []) = Some m' /\
    written_bits (history m') = l /\ lsb_first l = 0x3C.
Proof.
  split; [split; [lia | split; [reflexivity | lia]]|].
  destruct (written_slots_decode 2 0x3C (booted []) ltac:(lia) eq_refl (le_n 2))
    as ((m' & l & R & W & _ & D) & _).
  exists m', l. split; [exact R | split; [exact W | exact D]].
Defined.
